(** * Additive-Schwarz patch construction (firedrake/preconditioners/asm.py)

    A shallow embedding of the patch builders [ASMStarPC], [ASMVankaPC],
    [ASMLinesmoothPC] and [ASMExtrudedStarPC], of [nested_dissection],
    [get_basemesh_nodes] and of [ASMPatchPC.initialize], followed by the
    properties of the patch specification that were checked against them.

    Python integers are [Z]; numpy arrays and Python lists are [list];
    a Python [set] of points is a [gset Z]; exceptions are the [Raise]
    branch of [result]. *)

From Stdlib Require Import ZArith List Lia Ascii String.
From stdpp Require Import base gmap strings list sets sorting.

Local Open Scope Z_scope.

(** ** Exceptions *)

Inductive error : Type :=
| ValueError (msg : string)
| IndexError
| AssertionError.

Inductive result (A : Type) : Type :=
| Ok (a : A)
| Raise (e : error).
Global Arguments Ok {A} a.
Global Arguments Raise {A} e.

Global Instance result_ret : MRet result := fun A a => Ok a.
Global Instance result_bind : MBind result := fun A B f m =>
  match m with
  | Ok a => f a
  | Raise e => Raise e
  end.
Global Instance result_fmap : FMap result := fun A B f m =>
  match m with
  | Ok a => Ok (f a)
  | Raise e => Raise e
  end.

(** ** Python and numpy primitives *)

Module Py.

(** [range(a, b)] and [numpy.arange(a, b)]: empty when [b <= a]. *)
Definition range (a b : Z) : list Z := seqZ a (b - a).
Definition arange (a b : Z) : list Z := seqZ a (b - a).

(** Position designated by index [i] in a sequence of length [n]:
    negative indices count from the end, anything outside
    [-n .. n-1] raises [IndexError]. *)
Definition index_position (n : nat) (i : Z) : result nat :=
  if (0 <=? i) && (i <? Z.of_nat n) then Ok (Z.to_nat i)
  else if (- Z.of_nat n <=? i) && (i <? 0) then Ok (Z.to_nat (Z.of_nat n + i))
  else Raise IndexError.

(** [arr[i]] *)
Definition getitem {A} (arr : list A) (i : Z) : result A :=
  j ← index_position (length arr) i;
  match arr !! j with
  | Some x => Ok x
  | None => Raise IndexError
  end.

(** [arr[idx]] for an integer array [idx] (fancy indexing). *)
Definition take_indices {A} (arr : list A) (idx : list Z) : result (list A) :=
  mapM (getitem arr) idx.

(** [arr[i] = v] *)
Definition setitem {A} (arr : list A) (i : Z) (v : A) : result (list A) :=
  j ← index_position (length arr) i;
  Ok (<[j := v]> arr).

(** Bound of a slice: negative bounds count from the end, then the
    bound is clipped to [0 .. n]. *)
Definition slice_bound (n : Z) (i : Z) : Z :=
  if i <? 0 then Z.max 0 (i + n) else Z.min i n.

(** [arr[b:e]] (never raises). *)
Definition getslice {A} (arr : list A) (b e : Z) : list A :=
  let n := Z.of_nat (length arr) in
  let lo := slice_bound n b in
  let hi := slice_bound n e in
  take (Z.to_nat (hi - lo)) (drop (Z.to_nat lo) arr).

(** [numpy.concatenate(arrays)]: refuses an empty list of arrays. *)
Definition concatenate {A} (arrays : list (list A)) : result (list A) :=
  match arrays with
  | [] => Raise (ValueError "need at least one array to concatenate")
  | _ => Ok (concat arrays)
  end.

(** [numpy.cumsum] *)
Fixpoint cumsum_from (acc : Z) (l : list Z) : list Z :=
  match l with
  | [] => []
  | x :: l' => (acc + x) :: cumsum_from (acc + x) l'
  end.
Definition cumsum (l : list Z) : list Z := cumsum_from 0 l.

End Py.

(** ** Mesh topology and function spaces (external collaborators) *)

(** The DMPlex queries used by the patch builders. *)
Record DMPlex : Type := {
  getDepthStratum : Z -> Z * Z;
  getHeightStratum : Z -> Z * Z;
  getChart : Z * Z;
  getLabelValue : string -> Z -> Z;
  getTransitiveClosure : Z -> bool -> list Z;   (* seed, useCone *)
  getAdjacency : Z -> list Z
}.

(** [mesh.topology_dm], [mesh.cell_set._extruded], [mesh.layers]. *)
Record Mesh : Type := {
  topology_dm : DMPlex;
  extruded : bool;
  layers : Z
}.

(** One component [W] of a function space: [W.value_size], the section
    [W.dm.getDefaultSection()], the cell-node map used on extruded
    meshes, and the array [V.dof_dset.local_ises[i].indices] of the
    position [i] that [W] has in [V]. *)
Record SubSpace : Type := {
  value_size : Z;
  getDof : Z -> Z;
  getOffset : Z -> Z;
  local_is_indices : list Z;
  node_set_total_size : Z;
  cell_node_values_with_halo : list (list Z);
  cell_node_offset : list Z
}.

(** A function space [V]: its mesh, its own section and value size
    (used by the line smoother) and its components in declared order. *)
Record FunctionSpace : Type := {
  V_mesh : Mesh;
  V_value_size : Z;
  V_getDof : Z -> Z;
  V_getOffset : Z -> Z;
  V_subspaces : list SubSpace
}.

(** Options database, read at the type the getter asks for. *)
Record Options : Type := {
  opt_int : gmap string Z;
  opt_string : gmap string string;
  opt_bool : gmap string bool
}.

Definition getInt (o : Options) (name : string) (default : Z) : Z :=
  match opt_int o !! name with Some v => v | None => default end.
Definition getString (o : Options) (name : string) (default : string) : string :=
  match opt_string o !! name with Some v => v | None => default end.
Definition getBool (o : Options) (name : string) (default : bool) : bool :=
  match opt_bool o !! name with Some v => v | None => default end.

(** An index set ([PETSc.IS]) is the list of its indices. *)
Definition IS : Type := list Z.

(** The ownership test of every seed loop:
    [mesh_dm.getLabelValue("pyop2_ghost", seed) != -1] means ghost. *)
Definition is_ghost (dm : DMPlex) (seed : Z) : bool :=
  negb (getLabelValue dm "pyop2_ghost" seed =? -1).
Definition is_owned (dm : DMPlex) (seed : Z) : bool := negb (is_ghost dm seed).

(** ** The seed loop shared by the four patch builders

    [for seed in range(start, end):
         if mesh_dm.getLabelValue("pyop2_ghost", seed) != -1: continue
         <body>]
    where the body appends index sets to [ises]. *)
Fixpoint seed_loop (dm : DMPlex) (body : Z -> result (list IS))
    (seeds : list Z) (ises : list IS) : result (list IS) :=
  match seeds with
  | [] => Ok ises
  | seed :: rest =>
      if is_ghost dm seed then seed_loop dm body rest ises
      else
        new ← body seed;
        seed_loop dm body rest (ises ++ new)
  end.

(** ** Dof extraction shared by [ASMStarPC] and [ASMVankaPC]

    [for (i, W) in enumerate(V):
         section = W.dm.getDefaultSection()
         for p in pt_array: ...] *)
Fixpoint field_points_loop (W : SubSpace) (pts : list Z) (indices : list Z)
    : result (list Z) :=
  match pts with
  | [] => Ok indices
  | p :: rest =>
      let dof := getDof W p in
      if dof <=? 0 then field_points_loop W rest indices
      else
        let off := getOffset W p in
        let W_indices :=
          Py.arange (off * value_size W) (value_size W * (off + dof)) in
        sel ← Py.take_indices (local_is_indices W) W_indices;
        field_points_loop W rest (indices ++ sel)
  end.

Fixpoint fields_loop (Ws : list SubSpace) (pts : list Z) (indices : list Z)
    : result (list Z) :=
  match Ws with
  | [] => Ok indices
  | W :: rest =>
      indices' ← field_points_loop W pts indices;
      fields_loop rest pts indices'
  end.

Definition patch_indices (V : FunctionSpace) (pt_array : list Z) : result IS :=
  fields_loop (V_subspaces V) pt_array [].

(** ** [nested_dissection] *)

(** The matrix handed to PETSc: shape and CSR arrays (row pointers,
    column indices, values). *)
Record AIJ : Type := {
  aij_shape : Z * Z;
  aij_rows : list Z;
  aij_cols : list Z;
  aij_values : list Z
}.

Module Np.

(** [numpy.unique]: the sorted distinct values. *)
Fixpoint insert_unique (x : Z) (l : list Z) : list Z :=
  match l with
  | [] => [x]
  | y :: l' =>
      if x <? y then x :: l
      else if x =? y then l
      else y :: insert_unique x l'
  end.
Definition unique (l : list Z) : list Z := foldr insert_unique [] l.

Definition first_index (x : Z) (l : list Z) : option Z :=
  (fun r => Z.of_nat (fst r)) <$> list_find (fun y => y = x) l.

(** [numpy.intersect1d(ar1, ar2, return_indices=True)[1]]: for every
    common value, in increasing order, the position of its first
    occurrence in [ar1]. *)
Definition intersect1d_indices1 (ar1 ar2 : list Z) : list Z :=
  omap (fun v => first_index v ar1)
       (filter (fun v => v ∈ ar2) (unique ar1)).

End Np.

Section Builders.

(** [G.getOrdering(PETSc.Mat.OrderingType.ND)[0].getIndices()] *)
Context (getOrdering_ND : AIJ -> list Z).
(** Iteration order of a Python [set] of points. *)
Context (set_iter : gset Z -> list Z).
(** Python's [int(s)] on a string. *)
Context (py_int : string -> result Z).

Definition nested_dissection (mesh_dm : DMPlex) (pt_array : list Z)
    : result (list Z) :=
  let num_pt := Z.of_nat (length pt_array) in
  let subgraph :=
    map (fun p => Np.intersect1d_indices1 pt_array (getAdjacency mesh_dm p))
        pt_array in
  cols ← Py.concatenate subgraph;
  let rows :=
    Py.cumsum (0 :: map (fun neigh => Z.of_nat (length neigh)) subgraph) in
  let G := {| aij_shape := (num_pt, num_pt);
              aij_rows := rows;
              aij_cols := cols;
              aij_values := replicate (length cols) 1 |} in
  let idx := getOrdering_ND G in
  Py.take_indices pt_array idx.

(** ** [ASMStarPC.get_patches]

    The warnings logged on extruded meshes have no effect on the
    patches and are left out, here and in [ASMVankaPC]. *)

Definition star_patch (mesh_dm : DMPlex) (V : FunctionSpace) (seed : Z)
    : result (list IS) :=
  let pt_array := getTransitiveClosure mesh_dm seed false in
  pt_array ← nested_dissection mesh_dm pt_array;
  indices ← patch_indices V pt_array;
  Ok [indices].

Definition ASMStarPC_get_patches (opts : Options) (prefix : string)
    (V : FunctionSpace) : result (list IS) :=
  let mesh_dm := topology_dm (V_mesh V) in
  let depth := getInt opts (prefix +:+ "construct_dim") 0 in
  let '(start, end_) := getDepthStratum mesh_dm depth in
  seed_loop mesh_dm (star_patch mesh_dm V) (Py.range start end_) [].

(** ** [ASMVankaPC.get_patches] *)

(** [for pt in star.tolist():
         closure, _ = mesh_dm.getTransitiveClosure(seed, useCone=True)
         pt_array.update(closure.tolist())] *)
Fixpoint vanka_star_loop (mesh_dm : DMPlex) (seed : Z) (star : list Z)
    (pt_array : gset Z) : gset Z :=
  match star with
  | [] => pt_array
  | pt :: rest =>
      let closure := getTransitiveClosure mesh_dm seed true in
      vanka_star_loop mesh_dm seed rest (pt_array ∪ list_to_set closure)
  end.

Definition vanka_points (mesh_dm : DMPlex) (seed : Z) : gset Z :=
  let star := getTransitiveClosure mesh_dm seed false in
  vanka_star_loop mesh_dm seed star ∅.

Definition vanka_patch (mesh_dm : DMPlex) (V : FunctionSpace) (seed : Z)
    : result (list IS) :=
  let pt_array := vanka_points mesh_dm seed in
  indices ← patch_indices V (set_iter pt_array);
  Ok [indices].

Definition vanka_message (prefix : string) : string :=
  "Must set exactly one of " +:+ prefix +:+ "construct_dim or "
    +:+ prefix +:+ "construct_codim".

Definition ASMVankaPC_get_patches (opts : Options) (prefix : string)
    (V : FunctionSpace) : result (list IS) :=
  let mesh_dm := topology_dm (V_mesh V) in
  let depth := getInt opts (prefix +:+ "construct_dim") (-1) in
  let height := getInt opts (prefix +:+ "construct_codim") (-1) in
  if ((depth =? -1) && (height =? -1))
     || (negb (depth =? -1) && negb (height =? -1))
  then Raise (ValueError (vanka_message prefix))
  else
    let '(start, end_) :=
      if negb (depth =? -1) then getDepthStratum mesh_dm depth
      else getHeightStratum mesh_dm height in
    seed_loop mesh_dm (vanka_patch mesh_dm V) (Py.range start end_) [].

(** ** [ASMLinesmoothPC.get_patches] *)

(** [s.split(sep)] for a one-character separator. *)
Fixpoint split (sep : ascii) (s : string) : list string :=
  match s with
  | EmptyString => [EmptyString]
  | String c s' =>
      if Ascii.eqb c sep then EmptyString :: split sep s'
      else match split sep s' with
           | [] => [String c EmptyString]
           | w :: ws => String c w :: ws
           end
  end.

Definition linesmooth_patch (V : FunctionSpace) (p : Z) : result (list IS) :=
  let dof := V_getDof V p in
  if dof <=? 0 then Ok []
  else
    let off := V_getOffset V p in
    Ok [Py.arange (off * V_value_size V) (V_value_size V * (off + dof))].

Fixpoint codim_loop (dm : DMPlex) (V : FunctionSpace) (codim_list : list Z)
    (ises : list IS) : result (list IS) :=
  match codim_list with
  | [] => Ok ises
  | codim :: rest =>
      let '(start, end_) := getHeightStratum dm codim in
      ises' ← seed_loop dm (linesmooth_patch V) (Py.range start end_) ises;
      codim_loop dm V rest ises'
  end.

Definition ASMLinesmoothPC_get_patches (opts : Options) (prefix : string)
    (V : FunctionSpace) : result (list IS) :=
  let mesh := V_mesh V in
  if negb (extruded mesh) then Raise AssertionError
  else
    let dm := topology_dm mesh in
    let codim_list := getString opts (prefix +:+ "codims") "0, 1" in
    codim_list ← mapM py_int (split "," codim_list);
    codim_loop dm V codim_list [].

End Builders.

(** ** [get_basemesh_nodes] *)

(** [layer_offsets[values_with_halo] = offset]: every row of node
    numbers receives the per-cell offsets, position by position. *)
Fixpoint assign_row (arr : list Z) (row offset : list Z) : result (list Z) :=
  match row, offset with
  | node :: row', o :: offset' =>
      arr' ← Py.setitem arr node o;
      assign_row arr' row' offset'
  | _, _ => Ok arr
  end.

Fixpoint assign_rows (arr : list Z) (rows : list (list Z)) (offset : list Z)
    : result (list Z) :=
  match rows with
  | [] => Ok arr
  | row :: rest =>
      arr' ← assign_row arr row offset;
      assign_rows arr' rest offset
  end.

(** [for p in range(pstart, pend): ...] filling the three arrays in
    chart order. *)
Fixpoint basemesh_loop (W : SubSpace) (nlayers : Z) (layer_offsets : list Z)
    (ps : list Z) (acc : list Z * list Z * list Z)
    : result (list Z * list Z * list Z) :=
  match ps with
  | [] => Ok acc
  | p :: rest =>
      let dof := getDof W p in
      let off := getOffset W p in
      r ← (if dof =? 0 then Ok (0, 0)
           else
             layer_offset ← Py.getitem layer_offsets off;
             if 0 <=? layer_offset
             then Ok (dof - (nlayers - 1) * layer_offset, layer_offset)
             else Raise AssertionError);
      let '(dof_per_layer, layer_offset) := r in
      let '(basemeshoff, basemeshdof, basemeshlayeroffset) := acc in
      basemesh_loop W nlayers layer_offsets rest
        (basemeshoff ++ [off],
         basemeshdof ++ [dof_per_layer],
         basemeshlayeroffset ++ [layer_offset])
  end.

Definition get_basemesh_nodes (mesh : Mesh) (W : SubSpace)
    : result (list Z * list Z * list Z) :=
  let '(pstart, pend) := getChart (topology_dm mesh) in
  let layer_offsets := replicate (Z.to_nat (node_set_total_size W)) (-1) in
  layer_offsets ←
    assign_rows layer_offsets (cell_node_values_with_halo W) (cell_node_offset W);
  let nlayers := layers mesh in
  basemesh_loop W nlayers layer_offsets (Py.range pstart pend) ([], [], []).

(** ** [ASMExtrudedStarPC.get_patches] *)

(** [numpy.argsort(keys, kind='mergesort')]: the stable ascending
    ordering of the positions. *)
Fixpoint insert_stable (x : Z * Z) (l : list (Z * Z)) : list (Z * Z) :=
  match l with
  | [] => [x]
  | y :: l' => if fst x <=? fst y then x :: l else y :: insert_stable x l'
  end.

(** The pairs (key, position) in sorted order. *)
Definition sort_positions (keys : list Z) : list (Z * Z) :=
  foldr insert_stable [] (zip keys (seqZ 0 (Z.of_nat (length keys)))).

Definition argsort_mergesort (keys : list Z) : list Z :=
  map snd (sort_positions keys).

(** What the per-seed loops read for field [i]: [W], [V_ises[i]],
    [basemeshoff[i]], [basemeshdof[i]], [basemeshlayeroffsets[i]]. *)
Record FieldArrays : Type := {
  fa_W : SubSpace;
  fa_iset : list Z;
  fa_basemeshoff : list Z;
  fa_basemeshdof : list Z;
  fa_basemeshlayeroffsets : list Z
}.

(** The planes visited at layer [k]. *)
Definition planes_of_layer (k nlayers : Z) : list Z :=
  if k =? 0 then [1; 0]
  else if k =? nlayers - 1 then [-1; 0]
  else [-1; 1; 0].

(** The pair [begin, end] computed for one point on one plane. *)
Definition plane_range (k plane off blayer_offset dof : Z) : Z * Z :=
  if plane =? 0 then
    (off + k * blayer_offset, off + k * blayer_offset + dof)
  else
    (off + Z.min k (k + plane) * blayer_offset + dof,
     off + Z.max k (k + plane) * blayer_offset).

(** [for p in points: ...] appending to [slices] and [sdof]. *)
Fixpoint extruded_points_loop (F : FieldArrays) (k plane : Z) (points : list Z)
    (slices : list (Z * Z)) (sdof : list Z)
    : result (list (Z * Z) * list Z) :=
  match points with
  | [] => Ok (slices, sdof)
  | p :: rest =>
      blayer_offset ← Py.getitem (fa_basemeshlayeroffsets F) p;
      if blayer_offset <=? 0 then extruded_points_loop F k plane rest slices sdof
      else
        off ← Py.getitem (fa_basemeshoff F) p;
        dof ← Py.getitem (fa_basemeshdof F) p;
        let '(begin_, end_) := plane_range k plane off blayer_offset dof in
        let zlice := (value_size (fa_W F) * begin_, value_size (fa_W F) * end_) in
        extruded_points_loop F k plane rest
          (slices ++ [zlice]) (sdof ++ [end_ - begin_])
  end.

(** [for plane in planes: for p in points: ...] *)
Fixpoint extruded_planes_loop (F : FieldArrays) (k : Z) (planes points : list Z)
    (slices : list (Z * Z)) (sdof : list Z)
    : result (list (Z * Z) * list Z) :=
  match planes with
  | [] => Ok (slices, sdof)
  | plane :: rest =>
      r ← extruded_points_loop F k plane points slices sdof;
      extruded_planes_loop F k rest points (fst r) (snd r)
  end.

(** [for k in reversed(perm): indices.extend(iset[slices[k]])]; the
    loop variable is the function-level [k], so its last value is
    returned along with [indices]. *)
Fixpoint emit_loop (iset : list Z) (slices : list (Z * Z)) (order : list Z)
    (k : Z) (indices : list Z) : result (Z * list Z) :=
  match order with
  | [] => Ok (k, indices)
  | j :: rest =>
      zlice ← Py.getitem slices j;
      emit_loop iset slices rest j
        (indices ++ Py.getslice iset (fst zlice) (snd zlice))
  end.

(** [for i, W in enumerate(V): ...] for one layer; [k] is the current
    value of the variable [k] when the field is entered. *)
Fixpoint extruded_fields_loop (Fs : list FieldArrays) (planes points : list Z)
    (k : Z) (indices : list Z) : result (list Z) :=
  match Fs with
  | [] => Ok indices
  | F :: rest =>
      r ← extruded_planes_loop F k planes points [] [];
      let '(slices, sdof) := r in
      let perm := argsort_mergesort sdof in
      r' ← emit_loop (fa_iset F) slices (rev perm) k indices;
      extruded_fields_loop rest planes points (fst r') (snd r')
  end.

(** [for k in range(nlayers): ...] *)
Fixpoint extruded_layers_loop (Fs : list FieldArrays) (nlayers : Z)
    (points : list Z) (ks : list Z) (ises : list IS) : result (list IS) :=
  match ks with
  | [] => Ok ises
  | k :: rest =>
      let planes := planes_of_layer k nlayers in
      indices ← extruded_fields_loop Fs planes points k [];
      extruded_layers_loop Fs nlayers points rest (ises ++ [indices])
  end.

Definition field_arrays (mesh : Mesh) (W : SubSpace) : result FieldArrays :=
  r ← get_basemesh_nodes mesh W;
  let '(boff, bdof, blayer_offsets) := r in
  Ok {| fa_W := W;
        fa_iset := local_is_indices W;
        fa_basemeshoff := boff;
        fa_basemeshdof := bdof;
        fa_basemeshlayeroffsets := blayer_offsets |}.

Section ExtrudedStar.

Context (getOrdering_ND : AIJ -> list Z).

Definition extruded_star_patches (mesh_dm : DMPlex) (Fs : list FieldArrays)
    (nlayers pstart : Z) (seed : Z) : result (list IS) :=
  let points := getTransitiveClosure mesh_dm seed false in
  points ← nested_dissection getOrdering_ND mesh_dm points;
  let points := map (fun p => p - pstart) points in
  extruded_layers_loop Fs nlayers points (Py.range 0 nlayers) [].

Definition ASMExtrudedStarPC_get_patches (opts : Options) (prefix : string)
    (V : FunctionSpace) : result (list IS) :=
  let mesh := V_mesh V in
  let mesh_dm := topology_dm mesh in
  let nlayers := layers mesh in
  if negb (extruded mesh)
  then ASMStarPC_get_patches getOrdering_ND opts prefix V
  else
    let depth := getInt opts (prefix +:+ "construct_dim") 0 in
    Fs ← mapM (field_arrays mesh) (V_subspaces V);
    let '(start, end_) := getDepthStratum mesh_dm depth in
    let '(pstart, _) := getChart mesh_dm in
    seed_loop mesh_dm (extruded_star_patches mesh_dm Fs nlayers pstart)
      (Py.range start end_) [].

End ExtrudedStar.

(** ** [ASMPatchPC.initialize] *)

(** [str.lower] on ASCII letters. *)
Definition lower_ascii (c : ascii) : ascii :=
  let n := nat_of_ascii c in
  if (Nat.leb 65 n && Nat.leb n 90)%bool then ascii_of_nat (n + 32) else c.

Fixpoint lower (s : string) : string :=
  match s with
  | EmptyString => EmptyString
  | String c s' => String (lower_ascii c) (lower s')
  end.

(** Calls that [initialize] makes on its collaborators, in program
    order. *)
Inductive call : Type :=
| Call_get_patches
| Call_PC_create
| Call_incrementTabLevel
| Call_setOptionsPrefix (prefix : string)
| Call_setOperators
| Call_setType (type : string)
| Call_setASMType_BASIC
| Call_setASMSortIndices (dosort : bool)
| Call_Options_setitem (key value : string)
| Call_setASMLocalSubdomains (n : nat) (ises : list IS)
| Call_setLGMap
| Call_tinyasm_SetASMLocalSubdomains (ises : list IS) (value_sizes : list Z)
    (total : Z)
| Call_setUp
| Call_setFromOptions.

(** A computation that logs calls and may raise: the calls made up to
    the point where it returned or raised, and its outcome. *)
Definition traced (A : Type) : Type := (list call * result A)%type.

Global Instance traced_ret : MRet traced := fun A a => ([], Ok a).
Global Instance traced_bind : MBind traced := fun A B f m =>
  match m with
  | (t, Ok a) => let '(t', r) := f a in (t ++ t', r)
  | (t, Raise e) => (t, Raise e)
  end.

Definition log (c : call) : traced unit := ([c], Ok tt).
Definition lift {A} (c : call) (r : result A) : traced A := ([c], r).
Definition raise {A} (e : error) : traced A := ([], Raise e).

Definition tinyasm_message : string :=
  "To use the TinyASM backend you need to install firedrake with TinyASM (firedrake-update --tinyasm)".

Section Initialize.

(** The abstract method [get_patches] of the subclass. *)
Context (get_patches : FunctionSpace -> result (list IS)).
(** Module flag set by the guarded import of [tinyasm]. *)
Context (have_tinyasm : bool).
(** [V.dof_dset.lgmap.applyIS] *)
Context (lgmap_applyIS : IS -> IS).
(** [W.dof_dset.total_size] *)
Context (dof_dset_total_size : SubSpace -> Z).

Definition initialize (opts : Options) (prefix : string) (V : FunctionSpace)
    : traced unit :=
  ises ← lift Call_get_patches (get_patches V);
  _ ← log Call_PC_create;
  _ ← log Call_incrementTabLevel;
  _ ← log (Call_setOptionsPrefix (prefix +:+ "sub_"));
  _ ← log Call_setOperators;
  let backend := lower (getString opts (prefix +:+ "backend") "petscasm") in
  _ ← (if String.eqb backend "petscasm" then
         _ ← log (Call_setType "asm");
         _ ← log Call_setASMType_BASIC;
         let dosort := getBool opts (prefix +:+ "sort") true in
         _ ← log (Call_setASMSortIndices dosort);
         let sub := prefix +:+ "sub_" in
         _ ← (match opt_string opts !! (sub +:+ "sub_pc_type") with
              | None => log (Call_Options_setitem "sub_pc_type" "lu")
              | Some _ => mret tt
              end);
         _ ← (match opt_string opts !! (sub +:+ "sub_pc_factor_shift_type") with
              | None => log (Call_Options_setitem "sub_pc_factor_shift_type" "NONE")
              | Some _ => mret tt
              end);
         let ises := map lgmap_applyIS ises in
         log (Call_setASMLocalSubdomains (length ises) ises)
       else if String.eqb backend "tinyasm" then
         _ ← (if negb have_tinyasm
              then raise (ValueError tinyasm_message)
              else mret tt);
         _ ← log Call_setLGMap;
         _ ← log (Call_setType "tinyasm");
         _ ← log (Call_tinyasm_SetASMLocalSubdomains ises
                    (map value_size (V_subspaces V))
                    (foldr Z.add 0
                       (map (fun W => value_size W * dof_dset_total_size W)
                            (V_subspaces V))));
         log Call_setUp
       else
         raise (ValueError ("Unknown backend type f" +:+ backend)));
  log Call_setFromOptions.

End Initialize.

(** ** Reference definitions written from the patch specification *)

(** "Closure of the star": the union, over every point of the star of
    [e], of the closure of that point. *)
Definition closure_of_star (dm : DMPlex) (e : Z) : gset Z :=
  ⋃ (map (fun p => list_to_set (getTransitiveClosure dm p true))
         (getTransitiveClosure dm e false)).

(** Assembly "for each point, for each field in declared field order":
    [block W p] is what the pair contributes. *)
Definition assemble_by_point (block : SubSpace -> Z -> list Z)
    (Ws : list SubSpace) (points : list Z) : list Z :=
  flat_map (fun p => flat_map (fun W => block W p) Ws) points.

(** "[value_size * count] contiguous local indices starting at
    [value_size * offset]", nothing for a count of 0. *)
Definition contiguous_block (W : SubSpace) (p : Z) : list Z :=
  if getDof W p =? 0 then []
  else seqZ (value_size W * getOffset W p) (value_size W * getDof W p).

(** The same positions read through the index array of the field. *)
Definition looked_up_block (W : SubSpace) (p : Z) : list Z :=
  omap (fun i => local_is_indices W !! Z.to_nat i) (contiguous_block W p).

(** "Sorted by descending size ... ties broken by a stable sort":
    positions ordered by decreasing key, equal keys in their original
    relative order. *)
Fixpoint insert_stable_desc (x : Z * Z) (l : list (Z * Z)) : list (Z * Z) :=
  match l with
  | [] => [x]
  | y :: l' => if fst y <=? fst x then x :: l else y :: insert_stable_desc x l'
  end.

Definition stable_descending_order (keys : list Z) : list Z :=
  map snd (foldr insert_stable_desc []
             (zip keys (seqZ 0 (Z.of_nat (length keys))))).

(** What one (field, point) pair contributes to a patch: nothing for a
    dof count of 0 or less, otherwise the entries of the field's index
    array at the positions [value_size * offset] up to
    [value_size * (offset + count)]. *)
Definition point_block (W : SubSpace) (p : Z) : result (list Z) :=
  if getDof W p <=? 0 then Ok []
  else Py.take_indices (local_is_indices W)
         (Py.arange (getOffset W p * value_size W)
                    (value_size W * (getOffset W p + getDof W p))).

(** A computation that raises no [ValueError]. *)
Definition no_ValueError {A} (r : result A) : Prop :=
  forall msg, r <> Raise (ValueError msg).

(** Orders on pairs (size, position): [smaller_or_earlier] is the order
    of a stable ascending sort, [larger_or_later] is its converse. *)
Definition smaller_or_earlier (a b : Z * Z) : Prop :=
  fst a < fst b \/ (fst a = fst b /\ snd a < snd b).
Definition larger_or_later (a b : Z * Z) : Prop :=
  fst b < fst a \/ (fst b = fst a /\ snd b < snd a).

(** The slice of [iset] that position [j] of [slices] designates. *)
Definition slice_at (iset : list Z) (slices : list (Z * Z)) (j : Z) : list Z :=
  let zlice := slices !!! Z.to_nat j in
  Py.getslice iset (fst zlice) (snd zlice).

(** The rows of the adjacency pattern built by [nested_dissection]
    (its [subgraph]) and the matrix made of them (its [G]). *)
Definition adjacency_rows (mesh_dm : DMPlex) (pt_array : list Z)
    : list (list Z) :=
  map (fun p => Np.intersect1d_indices1 pt_array (getAdjacency mesh_dm p))
      pt_array.

Definition adjacency_graph (mesh_dm : DMPlex) (pt_array : list Z) : AIJ :=
  let subgraph := adjacency_rows mesh_dm pt_array in
  let num_pt := Z.of_nat (length pt_array) in
  {| aij_shape := (num_pt, num_pt);
     aij_rows :=
       Py.cumsum (0 :: map (fun neigh => Z.of_nat (length neigh)) subgraph);
     aij_cols := concat subgraph;
     aij_values := replicate (length (concat subgraph)) 1 |}.

(** A square matrix in compressed-row form: one row pointer more than
    there are rows, starting at 0, non-decreasing and ending at the
    number of stored entries; column indices within the matrix; one
    value per stored entry. *)
Definition csr_well_formed (G : AIJ) : Prop :=
  let n := fst (aij_shape G) in
  snd (aij_shape G) = n /\
  Z.of_nat (length (aij_rows G)) = n + 1 /\
  aij_rows G !! 0%nat = Some 0 /\
  List.last (aij_rows G) 0 = Z.of_nat (length (aij_cols G)) /\
  StronglySorted Z.le (aij_rows G) /\
  Forall (fun c => 0 <= c < n) (aij_cols G) /\
  length (aij_values G) = length (aij_cols G).

(** What [get_basemesh_nodes] records for the point [p]: a non-negative
    stride, zero on a point without dofs, and the number of dofs left
    once [nlayers - 1] strides are taken off the dofs of the column. *)
Definition column_entry (W : SubSpace) (nlayers : Z) (p : Z)
    (entry : Z * Z) : Prop :=
  0 <= snd entry /\
  fst entry + (nlayers - 1) * snd entry = getDof W p /\
  (getDof W p = 0 -> snd entry = 0).




(** The seeds on which the line smoother runs its body: the owned
    entities of the height stratum of each entry of the list of
    codimensions, entry after entry. *)
Definition linesmooth_seeds (dm : DMPlex) (codim_list : list Z) : list Z :=
  flat_map (fun codim =>
              filter (is_owned dm)
                (Py.range (fst (getHeightStratum dm codim))
                          (snd (getHeightStratum dm codim))))
           codim_list.

(** ** Concrete meshes and spaces used in examples *)

(** The interval mesh with cells 0, 1 and vertices 2, 3, 4 (cell 0 has
    vertices 2 and 3, cell 1 has vertices 3 and 4); nothing is ghost. *)
Definition interval_dm : DMPlex := {|
  getDepthStratum := fun d =>
    if d =? 0 then (2, 5) else if d =? 1 then (0, 2) else (0, 0);
  getHeightStratum := fun h =>
    if h =? 0 then (0, 2) else if h =? 1 then (2, 5) else (0, 0);
  getChart := (0, 5);
  getLabelValue := fun _ _ => -1;
  getTransitiveClosure := fun p useCone =>
    if useCone then
      if p =? 0 then [0; 2; 3] else if p =? 1 then [1; 3; 4] else [p]
    else
      if p =? 2 then [2; 0] else if p =? 3 then [3; 0; 1]
      else if p =? 4 then [4; 1] else [p];
  getAdjacency := fun p =>
    if p =? 0 then [0; 2; 3] else if p =? 1 then [1; 3; 4]
    else if p =? 2 then [2; 0; 3] else if p =? 3 then [3; 0; 1; 2; 4]
    else if p =? 4 then [4; 1; 3] else []
|}.

Definition interval_mesh : Mesh :=
  {| topology_dm := interval_dm; extruded := false; layers := 0 |}.

(** The interval mesh extruded with two cell layers: three layers of
    vertices. *)
Definition extruded_interval_mesh : Mesh :=
  {| topology_dm := interval_dm; extruded := true; layers := 3 |}.

(** An ordering routine that returns the identity permutation. *)
Definition identity_ordering (G : AIJ) : list Z := seqZ 0 (fst (aij_shape G)).

(** Increasing iteration order for sets of points. *)
Definition sorted_iter (s : gset Z) : list Z := Np.unique (elements s).

Definition no_options : Options :=
  {| opt_int := ∅; opt_string := ∅; opt_bool := ∅ |}.

(** Piecewise-linear field on the interval mesh: one dof on each of the
    vertices 2, 3, 4 (at offsets 0, 1, 2), none on the cells; [first]
    is where the field starts in the mixed numbering. *)
Definition P1_field (first : Z) : SubSpace := {|
  value_size := 1;
  getDof := fun p => if (2 <=? p) && (p <=? 4) then 1 else 0;
  getOffset := fun p => if (2 <=? p) && (p <=? 4) then p - 2 else 0;
  local_is_indices := seqZ first 3;
  node_set_total_size := 3;
  cell_node_values_with_halo := [[0; 1]; [1; 2]];
  cell_node_offset := []
|}.

(** The mixed space of two such fields: the first owns the positions
    0, 1, 2 of the mixed numbering, the second 3, 4, 5. *)
Definition P1xP1_interval : FunctionSpace := {|
  V_mesh := interval_mesh;
  V_value_size := 1;
  V_getDof := getDof (P1_field 0);
  V_getOffset := getOffset (P1_field 0);
  V_subspaces := [P1_field 0; P1_field 3]
|}.

(** Options selecting the vertices as Vanka seeds. *)
Definition vanka_vertex_options : Options :=
  {| opt_int := {[ "pc_vanka_construct_dim" := 0 ]};
     opt_string := ∅;
     opt_bool := ∅ |}.

(** Options asking for the TinyASM backend of the star preconditioner. *)
Definition tinyasm_options : Options :=
  {| opt_int := ∅;
     opt_string := {[ "pc_star_backend" := "TinyASM" ]};
     opt_bool := ∅ |}.

(** Piecewise-linear field on the extruded interval: every base vertex
    (points 2, 3, 4) carries a column of three dofs with stride 1, the
    base cells carry none; [first] is where the field starts in the
    mixed numbering. *)
Definition P1_column_field (first : Z) : SubSpace := {|
  value_size := 1;
  getDof := fun p => if (2 <=? p) && (p <=? 4) then 3 else 0;
  getOffset := fun p => if (2 <=? p) && (p <=? 4) then 3 * (p - 2) else 0;
  local_is_indices := seqZ first 9;
  node_set_total_size := 9;
  cell_node_values_with_halo := [[0; 1; 3; 4]; [3; 4; 6; 7]];
  cell_node_offset := [1; 1; 1; 1]
|}.

Definition P1xP1_extruded : FunctionSpace := {|
  V_mesh := extruded_interval_mesh;
  V_value_size := 1;
  V_getDof := getDof (P1_column_field 0);
  V_getOffset := getOffset (P1_column_field 0);
  V_subspaces := [P1_column_field 0; P1_column_field 9]
|}.

(** A single column with one dof per layer and stride 2 (three vertex
    layers: dofs 0 .. 4), read through an identity index array. *)
Definition stride2_column : FieldArrays := {|
  fa_W := {| value_size := 1;
             getDof := fun _ => 5;
             getOffset := fun _ => 0;
             local_is_indices := seqZ 0 5;
             node_set_total_size := 5;
             cell_node_values_with_halo := [[0; 1]];
             cell_node_offset := [2; 2] |};
  fa_iset := seqZ 0 5;
  fa_basemeshoff := [0];
  fa_basemeshdof := [1];
  fa_basemeshlayeroffsets := [2]
|}.

(** The interval mesh with the ghost label given by [label]. *)
Definition labelled_interval_dm (label : Z -> Z) : DMPlex := {|
  getDepthStratum := getDepthStratum interval_dm;
  getHeightStratum := getHeightStratum interval_dm;
  getChart := getChart interval_dm;
  getLabelValue := fun _ p => label p;
  getTransitiveClosure := getTransitiveClosure interval_dm;
  getAdjacency := getAdjacency interval_dm
|}.

(** The two-field space on the interval mesh of a process that owns
    nothing: every point carries the ghost label. *)
Definition P1xP1_all_ghost : FunctionSpace := {|
  V_mesh := {| topology_dm := labelled_interval_dm (fun _ => 1);
               extruded := false; layers := 0 |};
  V_value_size := 1;
  V_getDof := getDof (P1_field 0);
  V_getOffset := getOffset (P1_field 0);
  V_subspaces := [P1_field 0; P1_field 3]
|}.

(** A stand-in for [int] that reads the two pieces of "0, 1". *)
Definition int_of_default_codims (s : string) : result Z :=
  if String.eqb s "0" then Ok 0
  else if String.eqb s " 1" then Ok 1
  else Raise (ValueError "invalid literal for int() with base 10").

(** Options naming the codimension 1 twice for the line smoother. *)
Definition repeated_codim_options : Options :=
  {| opt_int := ∅;
     opt_string := {[ "pc_linesmooth_codims" := "1,1" ]};
     opt_bool := ∅ |}.

(** A stand-in for [int] that reads "0" and "1". *)
Definition int_of_digit (s : string) : result Z :=
  if String.eqb s "0" then Ok 0
  else if String.eqb s "1" then Ok 1
  else Raise (ValueError "invalid literal for int() with base 10").

(** * Properties *)

(** ** The exception monad *)

Lemma mapM_cons_eq {A B} (f : A -> result B) x l :
  mapM f (x :: l) = y ← f x; ys ← mapM f l; mret (y :: ys).
Proof. reflexivity. Qed.

Lemma mapM_Ok_cons {A B} (f : A -> result B) x l out :
  mapM f (x :: l) = Ok out <->
  exists y ys, f x = Ok y /\ mapM f l = Ok ys /\ out = y :: ys.
Proof.
  simpl. unfold mbind, result_bind, mret, result_ret.
  destruct (f x) as [y|e]; [destruct (mapM f l) as [ys|e]|].
  - split; [intros [= <-]; eauto|].
    intros (y' & ys' & [= <-] & [= <-] & ->). reflexivity.
  - split; [discriminate|]. intros (? & ? & _ & [=] & _).
  - split; [discriminate|]. intros (? & ? & [=] & _).
Qed.

Lemma mapM_Ok_Forall2 {A B} (f : A -> result B) l out :
  mapM f l = Ok out <-> Forall2 (fun a b => f a = Ok b) l out.
Proof.
  revert out. induction l as [|x l IH]; intros out.
  - simpl. split.
    + intros [= <-]. constructor.
    + intros H. inversion H. reflexivity.
  - rewrite mapM_Ok_cons. split.
    + intros (y & ys & Hy & Hys & ->). constructor; [done|]. by apply IH.
    + intros H. inversion H as [|? y ? ys Hy Hys]; subst.
      exists y, ys. split_and!; [done| |done]. by apply IH.
Qed.

(** Reordering the inputs of a successful [mapM] reorders its outputs. *)
Lemma mapM_Ok_perm {A B} (f : A -> result B) l l' :
  l ≡ₚ l' ->
  forall out', mapM f l' = Ok out' ->
  exists out, mapM f l = Ok out /\ out ≡ₚ out'.
Proof.
  induction 1 as [|x l l' _ IH|x y l|l l' l'' _ IH1 _ IH2]; intros out' Hout.
  - exists out'. done.
  - apply mapM_Ok_cons in Hout as (z & zs & Hz & Hzs & ->).
    destruct (IH _ Hzs) as (out & Hout & Hperm).
    exists (z :: out). split; [|by constructor].
    apply mapM_Ok_cons. eauto.
  - apply mapM_Ok_cons in Hout as (a & r & Ha & Hr & ->).
    apply mapM_Ok_cons in Hr as (b & r' & Hb & Hr' & ->).
    exists (b :: a :: r'). split; [|by constructor].
    apply mapM_Ok_cons. exists b, (a :: r'). split_and!; [done| |done].
    apply mapM_Ok_cons. eauto.
  - destruct (IH2 _ Hout) as (out2 & Hout2 & Hperm2).
    destruct (IH1 _ Hout2) as (out1 & Hout1 & Hperm1).
    exists out1. split; [done|]. by etrans.
Qed.

(** ** Indexing *)

Lemma index_position_nat n (i : nat) :
  (i < n)%nat -> Py.index_position n (Z.of_nat i) = Ok i.
Proof.
  intros Hi. unfold Py.index_position.
  replace (0 <=? Z.of_nat i) with true by (symmetry; apply Z.leb_le; lia).
  replace (Z.of_nat i <? Z.of_nat n) with true by (symmetry; apply Z.ltb_lt; lia).
  simpl. by rewrite Nat2Z.id.
Qed.

Lemma getitem_lookup {A} (arr : list A) (i : nat) x :
  arr !! i = Some x -> Py.getitem arr (Z.of_nat i) = Ok x.
Proof.
  intros Hx. unfold Py.getitem.
  rewrite index_position_nat by (by eapply lookup_lt_Some).
  simpl. unfold mbind, result_bind. by rewrite Hx.
Qed.

(** Reading every position in order gives the array back. *)
Lemma take_indices_all {A} (arr : list A) :
  Py.take_indices arr (seqZ 0 (Z.of_nat (length arr))) = Ok arr.
Proof.
  unfold Py.take_indices. apply mapM_Ok_Forall2.
  apply Forall2_same_length_lookup. split.
  - rewrite length_seqZ. lia.
  - intros i z x Hz Hx. apply lookup_seqZ in Hz as [-> _].
    rewrite Z.add_0_l. by apply getitem_lookup.
Qed.

(** Only [IndexError] can come out of indexing. *)
Lemma getitem_no_ValueError {A} (arr : list A) i :
  no_ValueError (Py.getitem arr i).
Proof.
  intros msg. unfold Py.getitem, Py.index_position.
  repeat (case_match; simpl); unfold mbind, result_bind; simpl;
    repeat case_match; congruence.
Qed.

Lemma mapM_no_ValueError {A B} (f : A -> result B) l :
  (forall x, no_ValueError (f x)) -> no_ValueError (mapM f l).
Proof.
  intros Hf. induction l as [|x l IH]; intros msg; simpl; [done|].
  unfold mbind, result_bind.
  destruct (f x) eqn:Hx; [|intros [= ->]; by eapply Hf].
  destruct (mapM f l) eqn:Hl; [done|]. intros [= ->]. by eapply IH.
Qed.

(** ** Nested-dissection reordering *)

(** Fancy indexing by a permutation of the positions permutes the array. *)
Lemma take_indices_permutation {A} (arr : list A) (idx : list Z) :
  idx ≡ₚ seqZ 0 (Z.of_nat (length arr)) ->
  exists out, Py.take_indices arr idx = Ok out /\ out ≡ₚ arr.
Proof.
  intros Hperm.
  exact (mapM_Ok_perm (Py.getitem arr) _ _ Hperm arr (take_indices_all arr)).
Qed.

Lemma nested_dissection_empty getOrdering_ND mesh_dm :
  nested_dissection getOrdering_ND mesh_dm [] =
  Raise (ValueError "need at least one array to concatenate").
Proof. reflexivity. Qed.

Lemma nested_dissection_reorders
    (getOrdering_ND : AIJ -> list Z) (mesh_dm : DMPlex) (pt_array : list Z) :
  (forall G, getOrdering_ND G ≡ₚ seqZ 0 (fst (aij_shape G))) ->
  pt_array <> [] ->
  exists out,
    nested_dissection getOrdering_ND mesh_dm pt_array = Ok out /\
    out ≡ₚ pt_array.
Proof.
  intros Hord Hne. unfold nested_dissection.
  destruct pt_array as [|p pts]; [done|].
  set (arr := p :: pts).
  set (subgraph := map _ arr).
  assert (Hc : Py.concatenate subgraph = Ok (concat subgraph)) by done.
  rewrite Hc. simpl mbind. unfold mbind, result_bind.
  match goal with
  | |- context [getOrdering_ND ?G] =>
      specialize (Hord G); set (idx := getOrdering_ND G) in *
  end.
  simpl in Hord.
  exact (take_indices_permutation arr idx Hord).
Qed.

(** C3, as the code has it: on a non-empty point sequence, and with an
    ordering routine that returns a permutation of the positions
    [0 .. n-1] of its [n x n] matrix, [nested_dissection] returns a
    sequence with the same entries as its input, reordered, hence of
    the same length. *)
Theorem nested_dissection_permutation
    (getOrdering_ND : AIJ -> list Z) (mesh_dm : DMPlex) (pt_array : list Z) :
  (forall G, getOrdering_ND G ≡ₚ seqZ 0 (fst (aij_shape G))) ->
  pt_array <> [] ->
  exists out,
    nested_dissection getOrdering_ND mesh_dm pt_array = Ok out /\
    out ≡ₚ pt_array /\
    length out = length pt_array.
Proof.
  intros Hord Hne.
  destruct (nested_dissection_reorders getOrdering_ND mesh_dm pt_array Hord Hne)
    as (out & Hout & Hperm).
  exists out. split_and!; [done|done|]. by apply Permutation_length.
Qed.

Lemma nested_dissection_permutation_witness :
  exists out,
    nested_dissection identity_ordering interval_dm [3; 0; 1] = Ok out /\
    out ≡ₚ [3; 0; 1] /\
    length out = length [3; 0; 1].
Proof.
  apply (nested_dissection_permutation identity_ordering interval_dm [3; 0; 1]).
  - intros G. reflexivity.
  - discriminate.
Defined.

(** C3 as written fails for the empty sequence: there is nothing to
    concatenate and the call raises instead of returning. *)
Lemma nested_dissection_empty_fails :
  ~ (exists out,
       nested_dissection identity_ordering interval_dm [] = Ok out /\
       out ≡ₚ []).
Proof. intros (out & Hout & _). discriminate Hout. Qed.

(** A sequence of one point is returned as it is. *)
Lemma nested_dissection_singleton getOrdering_ND mesh_dm p :
  (forall G, getOrdering_ND G ≡ₚ seqZ 0 (fst (aij_shape G))) ->
  nested_dissection getOrdering_ND mesh_dm [p] = Ok [p].
Proof.
  intros Hord.
  destruct (nested_dissection_reorders getOrdering_ND mesh_dm [p] Hord)
    as (out & -> & Hperm); [done|].
  f_equal. symmetry in Hperm. by apply Permutation_singleton_l in Hperm.
Qed.

(** ** Seeds and ownership *)

Lemma is_owned_label dm e :
  is_owned dm e <-> getLabelValue dm "pyop2_ghost" e = -1.
Proof.
  unfold is_owned, is_ghost. rewrite negb_involutive.
  rewrite Is_true_true. apply Z.eqb_eq.
Qed.

(** The seed loop runs its body on the owned seeds, in order, once
    each, and on nothing else. *)
Lemma seed_loop_owned dm body seeds ises :
  seed_loop dm body seeds ises =
  (fun news => ises ++ concat news) <$> mapM body (filter (is_owned dm) seeds).
Proof.
  revert ises. induction seeds as [|seed rest IH]; intros ises; simpl.
  - unfold fmap, result_fmap. simpl. by rewrite app_nil_r.
  - destruct (is_ghost dm seed) eqn:Hg.
    + rewrite filter_cons_False; [apply IH|].
      unfold is_owned. rewrite Hg. simpl. tauto.
    + rewrite filter_cons_True by (unfold is_owned; rewrite Hg; exact I).
      simpl. unfold mbind, result_bind.
      destruct (body seed) as [new|e]; [|done].
      rewrite IH. unfold fmap, result_fmap, mret, result_ret.
      destruct (mapM body _) as [news|e]; [|done].
      simpl. by rewrite app_assoc.
Qed.

Lemma seed_loop_owned_nil dm body seeds :
  seed_loop dm body seeds [] =
  (@concat _) <$> mapM body (filter (is_owned dm) seeds).
Proof. by rewrite seed_loop_owned. Qed.

Lemma codim_loop_owned dm V codim_list ises :
  codim_loop dm V codim_list ises =
  (fun news => ises ++ concat news) <$>
    mapM (fun codim =>
            (@concat _) <$> mapM (linesmooth_patch V)
              (filter (is_owned dm)
                 (Py.range (fst (getHeightStratum dm codim))
                           (snd (getHeightStratum dm codim)))))
         codim_list.
Proof.
  revert ises. induction codim_list as [|codim rest IH]; intros ises; simpl.
  - unfold fmap, result_fmap. simpl. by rewrite app_nil_r.
  - destruct (getHeightStratum dm codim) as [start end_]. simpl.
    rewrite seed_loop_owned.
    unfold mbind, result_bind, fmap, result_fmap, mret, result_ret.
    destruct (mapM (linesmooth_patch V) _) as [news|e]; [|done].
    rewrite IH. unfold fmap, result_fmap.
    destruct (mapM _ rest) as [more|e]; [|done].
    simpl. by rewrite app_assoc.
Qed.

Lemma owned_seeds_spec dm (stratum : Z * Z) e :
  e ∈ filter (is_owned dm) (Py.range (fst stratum) (snd stratum)) <->
  fst stratum <= e < snd stratum /\ getLabelValue dm "pyop2_ghost" e = -1.
Proof.
  rewrite list_elem_of_filter, is_owned_label.
  unfold Py.range. rewrite elem_of_seqZ. split; intros [? ?]; split; auto; lia.
Qed.

Lemma owned_seeds_NoDup dm (stratum : Z * Z) :
  NoDup (filter (is_owned dm) (Py.range (fst stratum) (snd stratum))).
Proof. apply NoDup_filter, NoDup_seqZ. Qed.

Lemma mapM_app_eq {A B} (f : A -> result B) l1 l2 :
  mapM f (l1 ++ l2) =
  xs ← mapM f l1; ys ← mapM f l2; Ok (xs ++ ys).
Proof.
  induction l1 as [|x l1 IH].
  - simpl. unfold mbind, result_bind. by destruct (mapM f l2).
  - rewrite <- app_comm_cons, !mapM_cons_eq, IH.
    unfold mbind, result_bind, mret, result_ret.
    destruct (f x); [|done]. destruct (mapM f l1); [|done].
    by destruct (mapM f l2).
Qed.

(** Running a body over the groups of a list, group after group, is
    running it over the whole list. *)
Lemma mapM_groups {A B C} (body : A -> result (list B)) (group : C -> list A)
    (cs : list C) :
  (@concat _) <$>
    mapM (fun c => (@concat _) <$> mapM body (group c)) cs =
  (@concat _) <$> mapM body (flat_map group cs).
Proof.
  induction cs as [|c cs IH]; [done|].
  rewrite mapM_cons_eq. cbn [flat_map]. rewrite mapM_app_eq.
  unfold fmap, result_fmap, mbind, result_bind, mret, result_ret in *.
  destruct (mapM body (group c)) as [xs|e]; [|done].
  destruct (mapM _ cs) as [ys|e];
    destruct (mapM body (flat_map group cs)) as [zs|e']; try done.
  injection IH as IH. by rewrite concat_app, <- IH.
Qed.

Lemma owned_seeds_count dm (stratum : Z * Z) e :
  count_occ Z.eq_dec
    (filter (is_owned dm) (Py.range (fst stratum) (snd stratum))) e =
  if is_owned dm e && (fst stratum <=? e) && (e <? snd stratum)
  then 1%nat else 0%nat.
Proof.
  destruct (is_owned dm e && (fst stratum <=? e) && (e <? snd stratum))
    eqn:Hin.
  - apply andb_prop in Hin as [Hin Hhi]. apply andb_prop in Hin as [Ho Hlo].
    apply (proj1 (NoDup_count_occ' Z.eq_dec _)
             (proj1 (NoDup_ListNoDup _) (owned_seeds_NoDup dm stratum))).
    apply list_elem_of_In, owned_seeds_spec. split; [lia|].
    apply is_owned_label. by rewrite Ho.
  - apply count_occ_not_In. intros He.
    apply list_elem_of_In, owned_seeds_spec in He as [Hr Hl].
    apply is_owned_label, Is_true_true in Hl. rewrite Hl in Hin.
    simpl in Hin. lia.
Qed.

Lemma linesmooth_seeds_count dm codim_list e :
  count_occ Z.eq_dec (linesmooth_seeds dm codim_list) e =
  if is_owned dm e
  then length (filter (fun codim =>
                         fst (getHeightStratum dm codim) <= e
                           < snd (getHeightStratum dm codim))
                      codim_list)
  else 0%nat.
Proof.
  unfold linesmooth_seeds.
  induction codim_list as [|codim rest IH]; cbn [flat_map].
  - simpl. by destruct (is_owned dm e).
  - rewrite count_occ_app, IH, owned_seeds_count, filter_cons.
    destruct (is_owned dm e); [|done]. simpl.
    destruct (decide _) as [Hin|Hout].
    + replace (fst (getHeightStratum dm codim) <=? e) with true
        by (symmetry; apply Z.leb_le; lia).
      replace (e <? snd (getHeightStratum dm codim)) with true
        by (symmetry; apply Z.ltb_lt; lia).
      done.
    + destruct (Z.leb_spec (fst (getHeightStratum dm codim)) e);
        destruct (Z.ltb_spec e (snd (getHeightStratum dm codim)));
        simpl; try done; lia.
Qed.

(** C10, as the code has it: in each of the four builders the per-seed
    work (closure queries, reordering, dof extraction) is run on
    entities whose ghost label is unset and on nothing else; a ghost
    entity never reaches it.  The star, Vanka and extruded star
    builders run it on the owned entities of the selected stratum,
    once for each and in increasing order.  The line smoother runs it
    on the owned entities of the height stratum of each entry of the
    list of codimensions, entry after entry: an owned entity is
    visited once for every entry whose stratum holds it. *)
Theorem seeds_are_the_owned_entities
    (getOrdering_ND : AIJ -> list Z) (set_iter : gset Z -> list Z)
    (py_int : string -> result Z)
    (opts : Options) (prefix : string) (V : FunctionSpace) :
  let mesh := V_mesh V in
  let dm := topology_dm mesh in
  let owned := fun stratum : Z * Z =>
    filter (is_owned dm) (Py.range (fst stratum) (snd stratum)) in
  (forall stratum e,
      e ∈ owned stratum <->
      fst stratum <= e < snd stratum /\ getLabelValue dm "pyop2_ghost" e = -1)
  /\ (forall stratum, NoDup (owned stratum))
  /\ ASMStarPC_get_patches getOrdering_ND opts prefix V =
       (@concat _) <$> mapM (star_patch getOrdering_ND dm V)
         (owned (getDepthStratum dm (getInt opts (prefix +:+ "construct_dim") 0)))
  /\ (let depth := getInt opts (prefix +:+ "construct_dim") (-1) in
      let height := getInt opts (prefix +:+ "construct_codim") (-1) in
      ASMVankaPC_get_patches set_iter opts prefix V =
        if ((depth =? -1) && (height =? -1))
           || (negb (depth =? -1) && negb (height =? -1))
        then Raise (ValueError (vanka_message prefix))
        else (@concat _) <$> mapM (vanka_patch set_iter dm V)
               (owned (if negb (depth =? -1) then getDepthStratum dm depth
                       else getHeightStratum dm height)))
  /\ ASMExtrudedStarPC_get_patches getOrdering_ND opts prefix V =
       (if negb (extruded mesh)
        then ASMStarPC_get_patches getOrdering_ND opts prefix V
        else
          Fs ← mapM (field_arrays mesh) (V_subspaces V);
          (@concat _) <$>
            mapM (extruded_star_patches getOrdering_ND dm Fs (layers mesh)
                    (fst (getChart dm)))
              (owned (getDepthStratum dm
                        (getInt opts (prefix +:+ "construct_dim") 0))))
  /\ ASMLinesmoothPC_get_patches py_int opts prefix V =
       (if negb (extruded mesh) then Raise AssertionError
        else
          codim_list ←
            mapM py_int (split "," (getString opts (prefix +:+ "codims") "0, 1"));
          (@concat _) <$>
            mapM (linesmooth_patch V) (linesmooth_seeds dm codim_list))
  /\ (forall codim_list e,
        (e ∈ linesmooth_seeds dm codim_list ->
         getLabelValue dm "pyop2_ghost" e = -1) /\
        count_occ Z.eq_dec (linesmooth_seeds dm codim_list) e =
          if is_owned dm e
          then length (filter (fun codim =>
                                 fst (getHeightStratum dm codim) <= e
                                   < snd (getHeightStratum dm codim))
                              codim_list)
          else 0%nat).
Proof.
  intros mesh dm owned. split_and!.
  - intros stratum e. apply owned_seeds_spec.
  - intros stratum. apply owned_seeds_NoDup.
  - unfold ASMStarPC_get_patches. fold mesh dm.
    destruct (getDepthStratum dm _) as [start end_].
    apply seed_loop_owned_nil.
  - intros depth height. unfold ASMVankaPC_get_patches.
    fold mesh dm depth height.
    destruct (_ || _); [done|].
    destruct (if negb (depth =? -1) then _ else _) as [start end_].
    apply seed_loop_owned_nil.
  - unfold ASMExtrudedStarPC_get_patches. fold mesh dm.
    destruct (negb (extruded mesh)); [done|].
    destruct (mapM (field_arrays mesh) _) as [Fs|e]; [|done].
    simpl.
    destruct (getDepthStratum dm _) as [start end_].
    destruct (getChart dm) as [pstart pend].
    apply seed_loop_owned_nil.
  - unfold ASMLinesmoothPC_get_patches. fold mesh dm.
    destruct (negb (extruded mesh)); [done|].
    destruct (mapM py_int _) as [codim_list|e]; [|done].
    simpl. rewrite codim_loop_owned. unfold linesmooth_seeds.
    rewrite <- (mapM_groups (linesmooth_patch V)). done.
  - intros codim_list e. split; [|apply linesmooth_seeds_count].
    intros He. unfold linesmooth_seeds in He.
    apply list_elem_of_In, in_flat_map in He as (codim & _ & He).
    by apply list_elem_of_In, owned_seeds_spec in He as [_ ?].
Qed.

(** C10 as written fails for the line smoother: with the codimension 1
    named twice ("1,1") on the extruded interval, whose three base
    vertices are owned, every vertex seeds two iterations and six
    patches are returned. *)
Lemma linesmooth_repeated_codim_seeds_twice :
  mapM int_of_digit
    (split "," (getString repeated_codim_options
                  ("pc_linesmooth_" +:+ "codims") "0, 1")) = Ok [1; 1] /\
  ASMLinesmoothPC_get_patches int_of_digit repeated_codim_options
    "pc_linesmooth_" P1xP1_extruded =
    Ok [[0; 1; 2]; [3; 4; 5]; [6; 7; 8]; [0; 1; 2]; [3; 4; 5]; [6; 7; 8]] /\
  linesmooth_seeds interval_dm [1; 1] = [2; 3; 4; 2; 3; 4] /\
  is_owned interval_dm 3 = true /\
  count_occ Z.eq_dec (linesmooth_seeds interval_dm [1; 1]) 3 = 2%nat /\
  count_occ Z.eq_dec (linesmooth_seeds interval_dm [1; 1]) 3 <> 1%nat.
Proof. split_and!; [by vm_compute..|]. vm_compute. discriminate. Qed.

(** ** Vanka option validation *)

Lemma bind_no_ValueError {A B} (m : result A) (f : A -> result B) :
  no_ValueError m -> (forall a, no_ValueError (f a)) -> no_ValueError (m ≫= f).
Proof.
  intros Hm Hf msg. unfold mbind, result_bind.
  destruct m as [a|e]; [apply Hf|].
  intros [= ->]. by eapply Hm.
Qed.

Lemma fmap_no_ValueError {A B} (g : A -> B) (m : result A) :
  no_ValueError m -> no_ValueError (g <$> m).
Proof.
  intros Hm msg. unfold fmap, result_fmap.
  destruct m as [a|e]; [done|]. intros [= ->]. by eapply Hm.
Qed.

Lemma field_points_loop_no_ValueError W pts indices :
  no_ValueError (field_points_loop W pts indices).
Proof.
  revert indices. induction pts as [|p rest IH]; intros indices; simpl.
  - done.
  - destruct (getDof W p <=? 0); [apply IH|].
    apply bind_no_ValueError; [|intros sel; apply IH].
    apply mapM_no_ValueError. intros i. apply getitem_no_ValueError.
Qed.

Lemma fields_loop_no_ValueError Ws pts indices :
  no_ValueError (fields_loop Ws pts indices).
Proof.
  revert indices. induction Ws as [|W rest IH]; intros indices; simpl.
  - done.
  - apply bind_no_ValueError; [apply field_points_loop_no_ValueError|].
    intros indices'. apply IH.
Qed.

Lemma vanka_patch_no_ValueError set_iter dm V seed :
  no_ValueError (vanka_patch set_iter dm V seed).
Proof.
  unfold vanka_patch, patch_indices.
  apply bind_no_ValueError; [apply fields_loop_no_ValueError|done].
Qed.

Lemma append_assoc (a b c : string) : (a +:+ b) +:+ c = a +:+ (b +:+ c).
Proof.
  induction a as [|ch a IH]; [done|].
  change (String ch ((a +:+ b) +:+ c) = String ch (a +:+ (b +:+ c))).
  by rewrite IH.
Qed.

(** The message spells out both option keys in full. *)
Lemma vanka_message_names_keys prefix :
  vanka_message prefix =
  "Must set exactly one of " +:+ (prefix +:+ "construct_dim") +:+ " or "
    +:+ (prefix +:+ "construct_codim").
Proof. unfold vanka_message. by rewrite (append_assoc prefix). Qed.

(** C4: [ASMVankaPC.get_patches] raises the configuration error, whose
    message names [<prefix>construct_dim] and [<prefix>construct_codim],
    exactly when both options are set or neither is (-1 standing for
    unset); with exactly one of them set no configuration error is
    raised.  In particular dim=-1, codim=-1 and dim=2, codim=1 are
    refused and dim=0, codim=-1 is accepted. *)
Theorem vanka_exactly_one_option
    (set_iter : gset Z -> list Z) (opts : Options) (prefix : string)
    (V : FunctionSpace) :
  let depth := getInt opts (prefix +:+ "construct_dim") (-1) in
  let height := getInt opts (prefix +:+ "construct_codim") (-1) in
  let outcome := ASMVankaPC_get_patches set_iter opts prefix V in
  (outcome = Raise (ValueError (vanka_message prefix)) <->
     (depth = -1 /\ height = -1) \/ (depth <> -1 /\ height <> -1))
  /\ (forall msg,
        outcome = Raise (ValueError msg) ->
        msg = "Must set exactly one of " +:+ (prefix +:+ "construct_dim")
                +:+ " or " +:+ (prefix +:+ "construct_codim"))
  /\ ((depth, height) = (-1, -1) ->
        outcome = Raise (ValueError (vanka_message prefix)))
  /\ ((depth, height) = (0, -1) -> no_ValueError outcome)
  /\ ((depth, height) = (2, 1) ->
        outcome = Raise (ValueError (vanka_message prefix))).
Proof.
  intros depth height outcome.
  assert (Hcases :
    ((depth = -1 /\ height = -1) \/ (depth <> -1 /\ height <> -1)) /\
      outcome = Raise (ValueError (vanka_message prefix))
    \/ ~ ((depth = -1 /\ height = -1) \/ (depth <> -1 /\ height <> -1)) /\
      no_ValueError outcome).
  { unfold outcome, ASMVankaPC_get_patches. fold depth height.
    destruct (Z.eqb_spec depth (-1)) as [Hd|Hd];
      destruct (Z.eqb_spec height (-1)) as [Hh|Hh]; simpl.
    - left. split; [by left|done].
    - right. split; [lia|].
      destruct (getHeightStratum _ _) as [start end_].
      rewrite seed_loop_owned_nil. apply fmap_no_ValueError, mapM_no_ValueError.
      intros seed. apply vanka_patch_no_ValueError.
    - right. split; [lia|].
      destruct (getDepthStratum _ _) as [start end_].
      rewrite seed_loop_owned_nil. apply fmap_no_ValueError, mapM_no_ValueError.
      intros seed. apply vanka_patch_no_ValueError.
    - left. split; [by right|done]. }
  split_and!.
  - destruct Hcases as [[Hc Ho]|[Hc Ho]]; split; try done.
    intros Hr. by apply Ho in Hr.
  - intros msg Hmsg. rewrite <- vanka_message_names_keys.
    destruct Hcases as [[_ Ho]|[_ Ho]]; [congruence|by apply Ho in Hmsg].
  - intros [= Hd Hh]. destruct Hcases as [[_ Ho]|[Hc _]]; [done|].
    destruct Hc. by left.
  - intros [= Hd Hh]. destruct Hcases as [[Hc _]|[_ Ho]]; [lia|done].
  - intros [= Hd Hh]. destruct Hcases as [[_ Ho]|[Hc _]]; [done|].
    destruct Hc. right. lia.
Qed.

(** ** The Vanka point set *)

Lemma vanka_star_loop_closure_of_seed dm seed star pt_array :
  vanka_star_loop dm seed star pt_array =
  match star with
  | [] => pt_array
  | _ => pt_array ∪ list_to_set (getTransitiveClosure dm seed true)
  end.
Proof.
  revert pt_array. induction star as [|pt rest IH]; intros pt_array; simpl.
  - done.
  - rewrite IH. destruct rest; [done|]. set_solver.
Qed.

(** Whatever the star contains, the loop only ever adds the closure of
    the seed itself. *)
Lemma vanka_points_closure_of_seed dm seed :
  getTransitiveClosure dm seed false <> [] ->
  vanka_points dm seed = list_to_set (getTransitiveClosure dm seed true).
Proof.
  intros Hne. unfold vanka_points.
  rewrite vanka_star_loop_closure_of_seed.
  destruct (getTransitiveClosure dm seed false); [done|]. set_solver.
Qed.

(** C1 on the interval mesh, seed = the middle vertex 3 (owned, in the
    stratum of dimension 0).  Its star is {3, 0, 1}; the closure of the
    star is the whole mesh {0, 1, 2, 3, 4}; the point set built by
    [ASMVankaPC.get_patches] is {3}. *)
Theorem vanka_points_interval_middle_vertex :
  is_owned interval_dm 3 = true /\
  getTransitiveClosure interval_dm 3 false = [3; 0; 1] /\
  closure_of_star interval_dm 3 = list_to_set [0; 1; 2; 3; 4] /\
  vanka_points interval_dm 3 = {[ 3 ]} /\
  vanka_points interval_dm 3 <> closure_of_star interval_dm 3.
Proof.
  assert (Hv : vanka_points interval_dm 3 = {[ 3 ]}).
  { rewrite vanka_points_closure_of_seed by done. simpl. set_solver. }
  assert (Hc : closure_of_star interval_dm 3 = list_to_set [0; 1; 2; 3; 4]).
  { unfold closure_of_star. simpl. set_solver. }
  split_and!; [done|done|done|done|].
  rewrite Hv, Hc. intros Heq.
  assert (H0 : 0 ∈ ({[ 3 ]} : gset Z)) by (rewrite Heq; set_solver).
  set_solver.
Qed.

(** On the two-field space over the interval every Vanka patch holds
    the dofs of its seed vertex only, where the closure of the star
    reaches the dofs of the neighbouring vertices as well. *)
Lemma vanka_patches_interval :
  ASMVankaPC_get_patches sorted_iter vanka_vertex_options "pc_vanka_"
    P1xP1_interval = Ok [[0; 3]; [1; 4]; [2; 5]] /\
  patch_indices P1xP1_interval (sorted_iter (closure_of_star interval_dm 3))
    = Ok [0; 1; 2; 3; 4; 5].
Proof. split; by vm_compute. Qed.

(** C2 on the same input: the Star patch of vertex 3 holds the points
    3, 0, 1, and the cells 0 and 1 are missing from the Vanka point
    set of the same seed and dimension. *)
Theorem vanka_misses_star_points_interval_middle_vertex :
  nested_dissection identity_ordering interval_dm
    (getTransitiveClosure interval_dm 3 false) = Ok [3; 0; 1] /\
  vanka_points interval_dm 3 = {[ 3 ]} /\
  ~ (list_to_set [3; 0; 1] ⊆ vanka_points interval_dm 3).
Proof.
  assert (Hv : vanka_points interval_dm 3 = {[ 3 ]}).
  { rewrite vanka_points_closure_of_seed by done. simpl. set_solver. }
  split_and!; [by vm_compute|done|].
  rewrite Hv. intros Hsub.
  assert (H0 : 0 ∈ ({[ 3 ]} : gset Z)) by (apply Hsub; set_solver).
  set_solver.
Qed.

(** ** Neighbour planes and dof sub-ranges of the extruded star *)

Lemma plane_range_zero k off blayer_offset dof :
  plane_range k 0 off blayer_offset dof =
  (off + k * blayer_offset, off + k * blayer_offset + dof).
Proof. reflexivity. Qed.

(** On a neighbour plane the range runs from the end of the dofs of the
    lower of the two layers to the bottom of the upper one; it is
    oriented the same way for both signs, and non-empty or empty but
    never reversed as long as a layer holds at most [blayer_offset]
    dofs. *)
Lemma plane_range_neighbour k plane off blayer_offset dof :
  plane = 1 \/ plane = -1 ->
  dof <= blayer_offset ->
  let lower := Z.min k (k + plane) in
  plane_range k plane off blayer_offset dof =
    (off + lower * blayer_offset + dof, off + (lower + 1) * blayer_offset) /\
  fst (plane_range k plane off blayer_offset dof)
    <= snd (plane_range k plane off blayer_offset dof).
Proof.
  intros Hp Hd lower. unfold plane_range.
  assert (Hmax : Z.max k (k + plane) = lower + 1) by (unfold lower; lia).
  destruct Hp as [-> | ->]; simpl; rewrite Hmax; fold lower; split; f_equal; lia.
Qed.





(** On the stride-2 column the middle layer collects the range below,
    the range above and the range of the layer itself. *)
Lemma layer_consults_planes_stride2 :
  extruded_planes_loop stride2_column 1 (planes_of_layer 1 3) [0] [] [] =
  Ok ([(1, 2); (3, 4); (2, 3)], [1; 1; 1]).
Proof. reflexivity. Qed.

(** With a single layer the bottom case applies. *)
Lemma planes_of_layer_single : planes_of_layer 0 1 = [1; 0].
Proof. reflexivity. Qed.

(** The neighbour layers that are consulted exist. *)
Lemma planes_of_layer_in_range k nlayers plane :
  0 <= k < nlayers -> 2 <= nlayers ->
  plane ∈ planes_of_layer k nlayers -> 0 <= k + plane < nlayers.
Proof.
  intros Hk Hn. unfold planes_of_layer.
  destruct (Z.eqb_spec k 0); [|destruct (Z.eqb_spec k (nlayers - 1))];
    intros Hin; set_unfold; lia.
Qed.

(** ** Order of the sub-ranges in an extruded patch *)

Lemma insert_stable_perm x l : insert_stable x l ≡ₚ x :: l.
Proof.
  induction l as [|y l IH]; simpl; [done|].
  destruct (fst x <=? fst y); [done|].
  rewrite IH. apply Permutation_swap.
Qed.

Lemma foldr_insert_stable_perm l : foldr insert_stable [] l ≡ₚ l.
Proof.
  induction l as [|x l IH]; simpl; [done|].
  rewrite insert_stable_perm. by constructor.
Qed.

Lemma insert_stable_sorted x l :
  StronglySorted smaller_or_earlier l ->
  Forall (fun y => snd x < snd y) l ->
  StronglySorted smaller_or_earlier (insert_stable x l).
Proof.
  induction 1 as [|y l Hsorted IH Hy]; intros Hlater; simpl.
  - repeat constructor.
  - apply Forall_cons in Hlater as [Hxy Hlater].
    destruct (Z.leb_spec (fst x) (fst y)) as [Hle|Hgt].
    + assert (Hlt : smaller_or_earlier x y) by (unfold smaller_or_earlier; lia).
      constructor; [by constructor|].
      constructor; [done|].
      eapply Forall_impl; [exact Hy|].
      intros z Hz. unfold smaller_or_earlier in *. lia.
    + constructor; [by apply IH|].
      rewrite insert_stable_perm. constructor; [|done].
      unfold smaller_or_earlier. lia.
Qed.

Lemma foldr_insert_stable_sorted l :
  StronglySorted (fun a b : Z * Z => snd a < snd b) l ->
  StronglySorted smaller_or_earlier (foldr insert_stable [] l).
Proof.
  induction 1 as [|x l _ IH Hx]; simpl; [constructor|].
  apply insert_stable_sorted; [done|].
  by rewrite foldr_insert_stable_perm.
Qed.

Lemma zip_positions_increasing keys m :
  StronglySorted (fun a b : Z * Z => snd a < snd b)
    (zip keys (seqZ m (Z.of_nat (length keys)))) /\
  Forall (fun a : Z * Z => m <= snd a)
    (zip keys (seqZ m (Z.of_nat (length keys)))).
Proof.
  revert m. induction keys as [|key keys IH]; intros m.
  - split; constructor.
  - cbn [length]. rewrite seqZ_cons by lia.
    replace (Z.pred (Z.of_nat (S (length keys))))
      with (Z.of_nat (length keys)) by lia.
    destruct (IH (Z.succ m)) as [Hs Hf]. simpl. split.
    + constructor; [done|].
      eapply Forall_impl; [exact Hf|]. simpl. intros a Ha. lia.
    + constructor; [simpl; lia|].
      eapply Forall_impl; [exact Hf|]. simpl. intros a Ha. lia.
Qed.

Lemma sort_positions_perm keys :
  sort_positions keys ≡ₚ zip keys (seqZ 0 (Z.of_nat (length keys))).
Proof. apply foldr_insert_stable_perm. Qed.

Lemma sort_positions_sorted keys :
  StronglySorted smaller_or_earlier (sort_positions keys).
Proof. apply foldr_insert_stable_sorted, zip_positions_increasing. Qed.

Lemma StronglySorted_rev_converse {A} (R : relation A) l :
  StronglySorted R l -> StronglySorted (fun a b => R b a) (rev l).
Proof.
  induction 1 as [|x l _ IH Hx]; simpl; [constructor|].
  apply StronglySorted_app_2.
  - intros a b Ha Hb. apply list_elem_of_singleton in Hb as ->.
    rewrite Forall_forall in Hx. apply Hx.
    by apply list_elem_of_In, in_rev, list_elem_of_In in Ha.
  - done.
  - repeat constructor.
Qed.

Lemma sort_positions_rev_sorted keys :
  StronglySorted larger_or_later (rev (sort_positions keys)).
Proof.
  exact (StronglySorted_rev_converse _ _ (sort_positions_sorted keys)).
Qed.

Lemma last_default_irrelevant {A} (l : list A) (x d d' : A) :
  List.last (x :: l) d = List.last (x :: l) d'.
Proof.
  revert x. induction l as [|y l IH]; intros x; [done|].
  change (List.last (y :: l) d = List.last (y :: l) d'). apply IH.
Qed.

Lemma last_cons_default {A} (l : list A) (x d : A) :
  List.last (x :: l) d = List.last l x.
Proof.
  destruct l as [|y l]; [done|].
  change (List.last (y :: l) d = List.last (y :: l) x). apply last_default_irrelevant.
Qed.

(** The emission loop appends the designated slices in the order it is
    given and leaves the last position visited in [k]. *)
Lemma emit_loop_spec iset slices order k indices :
  Forall (fun j => 0 <= j < Z.of_nat (length slices)) order ->
  emit_loop iset slices order k indices =
  Ok (List.last order k, indices ++ flat_map (slice_at iset slices) order).
Proof.
  revert k indices. induction order as [|j rest IH]; intros k indices Hrange.
  - simpl. by rewrite app_nil_r.
  - apply Forall_cons in Hrange as [Hj Hrest].
    cbn [emit_loop].
    assert (Hget : Py.getitem slices j = Ok (slices !!! Z.to_nat j)).
    { rewrite <- (Z2Nat.id j) at 1 by lia. apply getitem_lookup.
      apply list_lookup_lookup_total_lt. lia. }
    rewrite Hget, (last_cons_default rest j k). simpl. rewrite IH by done.
    unfold slice_at at 2. by rewrite app_assoc.
Qed.

Lemma extruded_points_loop_lengths F k plane points slices sdof slices' sdof' :
  extruded_points_loop F k plane points slices sdof = Ok (slices', sdof') ->
  length slices = length sdof ->
  length slices' = length sdof'.
Proof.
  revert slices sdof.
  induction points as [|p rest IH]; intros slices sdof; simpl.
  - intros [= <- <-]. done.
  - unfold mbind, result_bind.
    destruct (Py.getitem (fa_basemeshlayeroffsets F) p) as [blo|]; [|done].
    destruct (blo <=? 0); [apply IH|].
    destruct (Py.getitem (fa_basemeshoff F) p) as [off|]; [|done].
    destruct (Py.getitem (fa_basemeshdof F) p) as [dof|]; [|done].
    destruct (plane_range k plane off blo dof) as [begin_ end_].
    intros Hloop Hlen. eapply IH; [exact Hloop|].
    rewrite !length_app. simpl. lia.
Qed.

Lemma extruded_planes_loop_lengths F k planes points slices sdof slices' sdof' :
  extruded_planes_loop F k planes points slices sdof = Ok (slices', sdof') ->
  length slices = length sdof ->
  length slices' = length sdof'.
Proof.
  revert slices sdof.
  induction planes as [|plane rest IH]; intros slices sdof; simpl.
  - intros [= <- <-]. done.
  - unfold mbind, result_bind.
    destruct (extruded_points_loop F k plane points slices sdof)
      as [[sl sd]|] eqn:Hpts; [|done].
    simpl. intros Hloop Hlen. eapply IH; [exact Hloop|].
    by eapply extruded_points_loop_lengths.
Qed.

Lemma argsort_positions_in_range keys :
  Forall (fun j => 0 <= j < Z.of_nat (length keys)) (argsort_mergesort keys).
Proof.
  unfold argsort_mergesort. rewrite sort_positions_perm.
  rewrite snd_zip by (rewrite length_seqZ; lia).
  apply Forall_forall. intros j Hj. apply elem_of_seqZ in Hj. lia.
Qed.

(** C8, as the code has it: within a field the collected sub-ranges
    are emitted by decreasing size, and sub-ranges of equal size in the
    reverse of the order in which they were collected (a stable
    ascending sort read backwards).  [sorted] pairs every size with the
    position at which it was collected. *)
Theorem extruded_field_emission_order
    (F : FieldArrays) (rest : list FieldArrays) (planes points : list Z)
    (k : Z) (indices : list Z) (slices : list (Z * Z)) (sdof : list Z) :
  extruded_planes_loop F k planes points [] [] = Ok (slices, sdof) ->
  let sorted := rev (sort_positions sdof) in
  let order := rev (argsort_mergesort sdof) in
  order = map snd sorted /\
  sorted ≡ₚ zip sdof (seqZ 0 (Z.of_nat (length sdof))) /\
  StronglySorted larger_or_later sorted /\
  extruded_fields_loop (F :: rest) planes points k indices =
    extruded_fields_loop rest planes points (List.last order k)
      (indices ++ flat_map (slice_at (fa_iset F) slices) order).
Proof.
  intros Hloop sorted order. split_and!.
  - unfold order, sorted, argsort_mergesort. by rewrite map_rev.
  - unfold sorted. rewrite <- Permutation_rev. apply sort_positions_perm.
  - apply sort_positions_rev_sorted.
  - cbn [extruded_fields_loop]. rewrite Hloop. simpl.
    rewrite emit_loop_spec; [done|].
    apply Forall_forall. intros j Hj.
    apply list_elem_of_In, in_rev, list_elem_of_In in Hj.
    pose proof (argsort_positions_in_range sdof) as Hrange.
    rewrite Forall_forall in Hrange. specialize (Hrange j Hj).
    rewrite (extruded_planes_loop_lengths _ _ _ _ _ _ _ _ Hloop eq_refl).
    done.
Qed.

Lemma extruded_field_emission_order_witness :
  let slices := [(1, 2); (3, 4); (2, 3)] in
  let sdof := [1; 1; 1] in
  let sorted := rev (sort_positions sdof) in
  let order := rev (argsort_mergesort sdof) in
  order = map snd sorted /\
  sorted ≡ₚ zip sdof (seqZ 0 (Z.of_nat (length sdof))) /\
  StronglySorted larger_or_later sorted /\
  extruded_fields_loop [stride2_column] [-1; 1; 0] [0] 1 [] =
    extruded_fields_loop [] [-1; 1; 0] [0] (List.last order 1)
      ([] ++ flat_map (slice_at (fa_iset stride2_column) slices) order).
Proof.
  apply (extruded_field_emission_order stride2_column [] [-1; 1; 0] [0] 1 []
           [(1, 2); (3, 4); (2, 3)] [1; 1; 1]).
  reflexivity.
Defined.

(** C8 as written fails on a column with one dof per layer and stride
    2, at the middle layer: the three sub-ranges [1,2), [3,4), [2,3)
    have size 1; keeping their relative order would emit 1, 3, 2, and
    the patch is 2, 3, 1. *)
Lemma extruded_equal_sizes_are_reversed :
  extruded_planes_loop stride2_column 1 (planes_of_layer 1 3) [0] [] [] =
    Ok ([(1, 2); (3, 4); (2, 3)], [1; 1; 1]) /\
  stable_descending_order [1; 1; 1] = [0; 1; 2] /\
  flat_map (slice_at (fa_iset stride2_column) [(1, 2); (3, 4); (2, 3)])
    (stable_descending_order [1; 1; 1]) = [1; 3; 2] /\
  extruded_fields_loop [stride2_column] (planes_of_layer 1 3) [0] 1 [] =
    Ok [2; 3; 1] /\
  extruded_fields_loop [stride2_column] (planes_of_layer 1 3) [0] 1 [] <>
    Ok (flat_map (slice_at (fa_iset stride2_column) [(1, 2); (3, 4); (2, 3)])
          (stable_descending_order [1; 1; 1])).
Proof. split_and!; [by vm_compute..|]. vm_compute. discriminate. Qed.

(** ** Patch assembly *)

Lemma field_points_loop_blocks W pts indices :
  field_points_loop W pts indices =
  (fun blocks => indices ++ concat blocks) <$> mapM (point_block W) pts.
Proof.
  revert indices. induction pts as [|p rest IH]; intros indices.
  - simpl. unfold fmap, result_fmap. simpl. by rewrite app_nil_r.
  - rewrite mapM_cons_eq. cbn [field_points_loop].
    assert (Hblock : point_block W p =
      if getDof W p <=? 0 then Ok []
      else Py.take_indices (local_is_indices W)
             (Py.arange (getOffset W p * value_size W)
                (value_size W * (getOffset W p + getDof W p))))
      by reflexivity.
    destruct (getDof W p <=? 0).
    + rewrite Hblock, IH. unfold fmap, result_fmap, mbind, result_bind.
      by destruct (mapM (point_block W) rest).
    + rewrite Hblock. unfold mbind, result_bind, fmap, result_fmap.
      destruct (Py.take_indices _ _) as [sel|e]; [|done].
      rewrite IH. unfold fmap, result_fmap, mret, result_ret.
      destruct (mapM (point_block W) rest) as [blocks|e]; [|done].
      simpl. by rewrite app_assoc.
Qed.

Lemma fields_loop_blocks Ws pts indices :
  fields_loop Ws pts indices =
  (fun per_field => indices ++ concat per_field) <$>
    mapM (fun W => (@concat _) <$> mapM (point_block W) pts) Ws.
Proof.
  revert indices. induction Ws as [|W rest IH]; intros indices; simpl.
  - unfold fmap, result_fmap. simpl. by rewrite app_nil_r.
  - rewrite field_points_loop_blocks.
    unfold mbind, result_bind, fmap, result_fmap.
    destruct (mapM (point_block W) pts) as [blocks|e]; [|done].
    rewrite IH. unfold fmap, result_fmap, mret, result_ret.
    destruct (mapM _ rest) as [more|e]; [|done].
    simpl. by rewrite app_assoc.
Qed.

(** Through an identity index array a block is the contiguous range
    itself. *)
Lemma take_indices_identity n a len :
  0 <= a -> a + len <= n ->
  Py.take_indices (seqZ 0 n) (seqZ a len) = Ok (seqZ a len).
Proof.
  intros Ha Hn. unfold Py.take_indices. apply mapM_Ok_Forall2.
  apply Forall2_same_length_lookup. split; [done|].
  intros i x y Hx Hy. rewrite Hx in Hy. injection Hy as <-.
  apply lookup_seqZ in Hx as [-> Hi].
  rewrite <- (Z2Nat.id (a + Z.of_nat i)) by lia.
  apply getitem_lookup. apply lookup_seqZ. split; lia.
Qed.

(** C7, as the code has it: the dof indices of a patch are gathered
    field by field in declared order and, within a field, point by
    point in the order of the point list; a pair with a dof count of 0
    (or less) contributes nothing, any other contributes the
    [value_size * count] entries of the field's index array found at
    the contiguous positions starting at [value_size * offset]. *)
Theorem patch_indices_field_major (V : FunctionSpace) (pt_array : list Z) :
  patch_indices V pt_array =
    (@concat _) <$>
      mapM (fun W => (@concat _) <$> mapM (point_block W) pt_array)
           (V_subspaces V)
  /\ (forall W p, getDof W p <= 0 -> point_block W p = Ok [])
  /\ (forall W p block,
        0 < getDof W p ->
        point_block W p = Ok block ->
        Forall2 (fun i x => Py.getitem (local_is_indices W) i = Ok x)
          (seqZ (value_size W * getOffset W p) (value_size W * getDof W p))
          block).
Proof.
  split_and!.
  - unfold patch_indices. by rewrite fields_loop_blocks.
  - intros W p Hdof. unfold point_block.
    by destruct (Z.leb_spec (getDof W p) 0); [|lia].
  - intros W p block Hdof. unfold point_block.
    destruct (Z.leb_spec (getDof W p) 0); [lia|].
    unfold Py.take_indices, Py.arange. rewrite mapM_Ok_Forall2.
    replace (getOffset W p * value_size W) with (value_size W * getOffset W p)
      by lia.
    replace (value_size W * (getOffset W p + getDof W p)
             - value_size W * getOffset W p)
      with (value_size W * getDof W p) by lia.
    done.
Qed.

(** C7 as written fails on the two-field space over the interval, for
    the points 2, 3, 4: going point by point would give 0, 0, 1, 1, 2, 2
    (or 0, 3, 1, 4, 2, 5 read through the index arrays), and the patch
    is 0, 1, 2, 3, 4, 5. *)
Lemma patch_indices_not_point_major :
  patch_indices P1xP1_interval [2; 3; 4] = Ok [0; 1; 2; 3; 4; 5] /\
  assemble_by_point contiguous_block (V_subspaces P1xP1_interval) [2; 3; 4]
    = [0; 0; 1; 1; 2; 2] /\
  assemble_by_point looked_up_block (V_subspaces P1xP1_interval) [2; 3; 4]
    = [0; 3; 1; 4; 2; 5] /\
  patch_indices P1xP1_interval [2; 3; 4] <>
    Ok (assemble_by_point contiguous_block
          (V_subspaces P1xP1_interval) [2; 3; 4]) /\
  patch_indices P1xP1_interval [2; 3; 4] <>
    Ok (assemble_by_point looked_up_block
          (V_subspaces P1xP1_interval) [2; 3; 4]).
Proof. split_and!; [by vm_compute..| |]; vm_compute; discriminate. Qed.

(** ** The layer index in the extruded star *)

(** C5 on the two-field piecewise-linear space over the extruded
    interval (three vertex layers), seed = the middle vertex 3, top
    layer [k = 2].  The column of vertex 3 starts at offset 3 with
    stride 1 and one dof per layer, so plane 0 must select [5, 6) in
    both fields: index 5 of the first field and index 14 of the second.
    The patch holds 5 and 12: for the second field the range has been
    computed with the position left in [k] by the emission loop of the
    first field, [3, 4), which is layer 0. *)
Theorem extruded_second_field_uses_stale_layer :
  ASMExtrudedStarPC_get_patches identity_ordering no_options "pc_star_"
    P1xP1_extruded =
    Ok [[0; 9]; [1; 9]; [2; 9]; [3; 12]; [4; 12]; [5; 12];
        [6; 15]; [7; 15]; [8; 15]] /\
  (exists F1 F2,
      mapM (field_arrays extruded_interval_mesh) (V_subspaces P1xP1_extruded)
        = Ok [F1; F2] /\
      extruded_planes_loop F1 2 (planes_of_layer 2 3) [3; 0; 1] [] [] =
        Ok ([(5, 5); (5, 6)], [0; 1]) /\
      emit_loop (fa_iset F1) [(5, 5); (5, 6)] (rev (argsort_mergesort [0; 1]))
        2 [] = Ok (0, [5]) /\
      extruded_planes_loop F2 0 (planes_of_layer 2 3) [3; 0; 1] [] [] =
        Ok ([(3, 3); (3, 4)], [0; 1]) /\
      extruded_fields_loop [F1; F2] (planes_of_layer 2 3) [3; 0; 1] 2 [] =
        Ok [5; 12] /\
      plane_range 2 0 3 1 1 = (5, 6) /\
      Py.getslice (fa_iset F2) 5 6 = [14]).
Proof.
  split; [by vm_compute|].
  eexists _, _. split; [by vm_compute|].
  split_and!; by vm_compute.
Qed.

(** ** Initialisation and the TinyASM backend *)

(** C9, as the code has it: when the TinyASM backend is requested and
    the [tinyasm] module could not be imported, [initialize] raises the
    error that tells how to install it; this happens after
    [get_patches] has been called and has returned the patches, and
    before any sub-domain is handed to the backend.  When [get_patches]
    raises, its error is the one that comes out. *)
Theorem initialize_without_tinyasm
    (get_patches : FunctionSpace -> result (list IS))
    (lgmap_applyIS : IS -> IS) (dof_dset_total_size : SubSpace -> Z)
    (opts : Options) (prefix : string) (V : FunctionSpace) :
  lower (getString opts (prefix +:+ "backend") "petscasm") = "tinyasm" ->
  (forall ises,
      get_patches V = Ok ises ->
      initialize get_patches false lgmap_applyIS dof_dset_total_size
        opts prefix V =
      ([Call_get_patches; Call_PC_create; Call_incrementTabLevel;
        Call_setOptionsPrefix (prefix +:+ "sub_"); Call_setOperators],
       Raise (ValueError tinyasm_message))) /\
  (forall e,
      get_patches V = Raise e ->
      initialize get_patches false lgmap_applyIS dof_dset_total_size
        opts prefix V =
      ([Call_get_patches], Raise e)).
Proof.
  intros Hbackend. split.
  - intros ises Hises. unfold initialize. rewrite Hises, Hbackend.
    reflexivity.
  - intros e He. unfold initialize. rewrite He. reflexivity.
Qed.

Lemma initialize_without_tinyasm_witness :
  (forall ises,
      ASMStarPC_get_patches identity_ordering no_options "pc_star_"
        P1xP1_interval = Ok ises ->
      initialize (ASMStarPC_get_patches identity_ordering no_options "pc_star_")
        false id (fun _ => 3) tinyasm_options "pc_star_" P1xP1_interval =
      ([Call_get_patches; Call_PC_create; Call_incrementTabLevel;
        Call_setOptionsPrefix ("pc_star_" +:+ "sub_"); Call_setOperators],
       Raise (ValueError tinyasm_message))) /\
  (forall e,
      ASMStarPC_get_patches identity_ordering no_options "pc_star_"
        P1xP1_interval = Raise e ->
      initialize (ASMStarPC_get_patches identity_ordering no_options "pc_star_")
        false id (fun _ => 3) tinyasm_options "pc_star_" P1xP1_interval =
      ([Call_get_patches], Raise e)).
Proof.
  apply (initialize_without_tinyasm
           (ASMStarPC_get_patches identity_ordering no_options "pc_star_")
           id (fun _ => 3) tinyasm_options "pc_star_" P1xP1_interval).
  reflexivity.
Defined.

(** C9 as written fails: with the star builder on the interval mesh and
    TinyASM requested but missing, the patches have been built by the
    time the error is raised. *)
Lemma initialize_builds_patches_before_failing :
  ASMStarPC_get_patches identity_ordering no_options "pc_star_" P1xP1_interval
    = Ok [[0; 3]; [1; 4]; [2; 5]] /\
  snd (initialize
         (ASMStarPC_get_patches identity_ordering no_options "pc_star_")
         false id (fun _ => 3) tinyasm_options "pc_star_" P1xP1_interval)
    = Raise (ValueError tinyasm_message) /\
  ~ (Call_get_patches ∉
       fst (initialize
              (ASMStarPC_get_patches identity_ordering no_options "pc_star_")
              false id (fun _ => 3) tinyasm_options "pc_star_" P1xP1_interval)).
Proof.
  split_and!; [by vm_compute|by vm_compute|].
  intros Hnot. apply Hnot. vm_compute. apply list_elem_of_here.
Qed.

(** * Further properties of the builders *)

(** ** Number of patches *)

Lemma mapM_Ok_length {A B} (f : A -> result B) l out :
  mapM f l = Ok out -> length out = length l.
Proof.
  rewrite mapM_Ok_Forall2. intros H. symmetry. by eapply Forall2_length.
Qed.

Lemma concat_length_uniform {A} (ls : list (list A)) (c : nat) :
  Forall (fun l => length l = c) ls ->
  length (concat ls) = (c * length ls)%nat.
Proof.
  induction 1 as [|l ls Hl _ IH]; simpl; [lia|].
  rewrite length_app, IH, Hl. lia.
Qed.

Lemma mapM_uniform_length {A B} (f : A -> result (list B)) (c : nat) l outs :
  (forall x out, f x = Ok out -> length out = c) ->
  mapM f l = Ok outs ->
  length (concat outs) = (c * length l)%nat.
Proof.
  intros Hf Houts. rewrite <- (mapM_Ok_length f l outs Houts).
  apply concat_length_uniform.
  apply mapM_Ok_Forall2 in Houts.
  induction Houts as [|x out l outs Hx _ IH]; constructor; eauto.
Qed.

Lemma fmap_Ok_inv {A B} (g : A -> B) (m : result A) b :
  g <$> m = Ok b -> exists a, m = Ok a /\ b = g a.
Proof.
  unfold fmap, result_fmap. destruct m as [a|e]; [|done].
  intros [= <-]. eauto.
Qed.

Lemma bind_Ok_inv {A B} (m : result A) (f : A -> result B) b :
  m ≫= f = Ok b -> exists a, m = Ok a /\ f a = Ok b.
Proof.
  unfold mbind, result_bind. destruct m as [a|e]; [|done]. eauto.
Qed.

Lemma star_patch_single getOrdering_ND dm V seed out :
  star_patch getOrdering_ND dm V seed = Ok out -> length out = 1%nat.
Proof.
  unfold star_patch. intros H.
  apply bind_Ok_inv in H as (pts & _ & H).
  apply bind_Ok_inv in H as (indices & _ & [= <-]). done.
Qed.

(** [ASMStarPC.get_patches], when it returns, returns one index set
    for each owned entity of the stratum, empty ones included. *)
Theorem star_one_patch_per_owned_seed
    (getOrdering_ND : AIJ -> list Z) (opts : Options) (prefix : string)
    (V : FunctionSpace) (ises : list IS) :
  ASMStarPC_get_patches getOrdering_ND opts prefix V = Ok ises ->
  let dm := topology_dm (V_mesh V) in
  let stratum := getDepthStratum dm (getInt opts (prefix +:+ "construct_dim") 0) in
  length ises =
  length (filter (is_owned dm) (Py.range (fst stratum) (snd stratum))).
Proof.
  intros Hises dm stratum. unfold ASMStarPC_get_patches in Hises.
  fold dm in Hises. fold stratum in Hises.
  destruct stratum as [start end_]. rewrite seed_loop_owned_nil in Hises.
  apply fmap_Ok_inv in Hises as (outs & Houts & ->).
  rewrite (mapM_uniform_length _ 1 _ _ (star_patch_single _ _ _) Houts).
  simpl. lia.
Qed.

Lemma star_one_patch_per_owned_seed_witness :
  length [[0; 3]; [1; 4]; [2; 5]] =
  length (filter (is_owned interval_dm) (Py.range 2 5)).
Proof.
  apply (star_one_patch_per_owned_seed identity_ordering no_options "pc_star_"
           P1xP1_interval [[0; 3]; [1; 4]; [2; 5]]).
  by vm_compute.
Defined.

Lemma extruded_layers_loop_length Fs nlayers points ks ises out :
  extruded_layers_loop Fs nlayers points ks ises = Ok out ->
  length out = (length ises + length ks)%nat.
Proof.
  revert ises. induction ks as [|k rest IH]; intros ises; simpl.
  - intros [= <-]. lia.
  - intros H. apply bind_Ok_inv in H as (indices & _ & H).
    apply IH in H. rewrite length_app in H. simpl in *. lia.
Qed.

Lemma extruded_star_patches_length getOrdering_ND dm Fs nlayers pstart seed out :
  extruded_star_patches getOrdering_ND dm Fs nlayers pstart seed = Ok out ->
  length out = Z.to_nat nlayers.
Proof.
  unfold extruded_star_patches. intros H.
  apply bind_Ok_inv in H as (pts & _ & H).
  apply extruded_layers_loop_length in H. rewrite H.
  unfold Py.range. rewrite length_seqZ. simpl. f_equal. lia.
Qed.

(** On an extruded mesh [ASMExtrudedStarPC.get_patches], when it
    returns, returns [mesh.layers] index sets for each owned entity of
    the stratum: (owned seeds) x (layers) patches in all. *)
Theorem extruded_star_patch_count
    (getOrdering_ND : AIJ -> list Z) (opts : Options) (prefix : string)
    (V : FunctionSpace) (ises : list IS) :
  extruded (V_mesh V) = true ->
  ASMExtrudedStarPC_get_patches getOrdering_ND opts prefix V = Ok ises ->
  let dm := topology_dm (V_mesh V) in
  let stratum := getDepthStratum dm (getInt opts (prefix +:+ "construct_dim") 0) in
  length ises =
  (Z.to_nat (layers (V_mesh V)) *
   length (filter (is_owned dm) (Py.range (fst stratum) (snd stratum))))%nat.
Proof.
  intros Hext Hises dm stratum. unfold ASMExtrudedStarPC_get_patches in Hises.
  rewrite Hext in Hises. simpl in Hises.
  apply bind_Ok_inv in Hises as (Fs & _ & Hises).
  fold dm in Hises. fold stratum in Hises.
  destruct stratum as [start end_]. destruct (getChart dm) as [pstart pend].
  rewrite seed_loop_owned_nil in Hises.
  apply fmap_Ok_inv in Hises as (outs & Houts & ->).
  exact (mapM_uniform_length _ _ _ _
           (extruded_star_patches_length _ _ _ _ _) Houts).
Qed.

Lemma extruded_star_patch_count_witness :
  length [[0; 9]; [1; 9]; [2; 9]; [3; 12]; [4; 12]; [5; 12];
          [6; 15]; [7; 15]; [8; 15]] =
  (Z.to_nat 3 * length (filter (is_owned interval_dm) (Py.range 2 5)))%nat.
Proof.
  apply (extruded_star_patch_count identity_ordering no_options "pc_star_"
           P1xP1_extruded).
  - reflexivity.
  - by vm_compute.
Defined.

(** ** A process that owns no seed *)

Lemma no_owned_seed dm seeds :
  Forall (fun e => getLabelValue dm "pyop2_ghost" e <> -1) seeds ->
  filter (is_owned dm) seeds = [].
Proof.
  induction 1 as [|e seeds He _ IH]; [done|].
  rewrite filter_cons_False; [done|]. by rewrite is_owned_label.
Qed.

(** When every entity carries the ghost label, the star and Vanka
    builders return no patch at all, whatever the topology and the dof
    layout are: nothing is queried and nothing can fail (for Vanka,
    once exactly one of its two options is set). *)
Theorem no_patches_without_owned_seeds
    (getOrdering_ND : AIJ -> list Z) (set_iter : gset Z -> list Z)
    (opts vanka_opts : Options) (prefix vanka_prefix : string)
    (V : FunctionSpace) :
  let dm := topology_dm (V_mesh V) in
  let depth := getInt vanka_opts (vanka_prefix +:+ "construct_dim") (-1) in
  let height := getInt vanka_opts (vanka_prefix +:+ "construct_codim") (-1) in
  (forall e, getLabelValue dm "pyop2_ghost" e <> -1) ->
  (depth <> -1 /\ height = -1) \/ (depth = -1 /\ height <> -1) ->
  ASMStarPC_get_patches getOrdering_ND opts prefix V = Ok [] /\
  ASMVankaPC_get_patches set_iter vanka_opts vanka_prefix V = Ok [].
Proof.
  intros dm depth height Hghost Hone.
  assert (Hnone : forall s e, filter (is_owned dm) (Py.range s e) = []).
  { intros s e. apply no_owned_seed, Forall_forall. intros x _. apply Hghost. }
  split.
  - unfold ASMStarPC_get_patches. fold dm.
    destruct (getDepthStratum dm _) as [start end_].
    by rewrite seed_loop_owned_nil, Hnone.
  - unfold ASMVankaPC_get_patches. fold dm depth height.
    assert (Hcfg : ((depth =? -1) && (height =? -1))
                   || (negb (depth =? -1) && negb (height =? -1)) = false).
    { destruct (Z.eqb_spec depth (-1)), (Z.eqb_spec height (-1)); simpl; lia. }
    rewrite Hcfg.
    destruct (if negb _ then _ else _) as [start end_].
    by rewrite seed_loop_owned_nil, Hnone.
Qed.

Lemma no_patches_without_owned_seeds_witness :
  ASMStarPC_get_patches identity_ordering no_options "pc_star_"
    P1xP1_all_ghost = Ok [] /\
  ASMVankaPC_get_patches sorted_iter vanka_vertex_options "pc_vanka_"
    P1xP1_all_ghost = Ok [].
Proof.
  apply (no_patches_without_owned_seeds identity_ordering sorted_iter
           no_options vanka_vertex_options "pc_star_" "pc_vanka_"
           P1xP1_all_ghost).
  - intros e. simpl. lia.
  - left. by vm_compute.
Defined.

(** ** The line smoother *)

Lemma mapM_Ok_map {A B} (f : A -> result B) (g : A -> B) l :
  (forall x, f x = Ok (g x)) -> mapM f l = Ok (map g l).
Proof.
  intros Hfg. induction l as [|x l IH]; [done|].
  rewrite mapM_cons_eq, Hfg, IH. done.
Qed.

Lemma concat_map_optional {A B} (keep : A -> bool) (g : A -> B) l :
  concat (map (fun x => if keep x then [g x] else []) l) =
  map g (filter (fun x => keep x) l).
Proof.
  induction l as [|x l IH]; [done|]. simpl.
  destruct (keep x) eqn:Hk.
  - rewrite filter_cons_True by (cbv beta; rewrite Hk; exact I).
    simpl. by rewrite IH.
  - rewrite filter_cons_False by (cbv beta; rewrite Hk; exact id). done.
Qed.

(** Once the list of codimensions has been read, the line smoother
    cannot fail: it returns, codimension by codimension and in
    increasing point order, the dof range
    [value_size * offset, value_size * (offset + dof)) of every owned
    entity of the height stratum that carries dofs.  With a positive
    [value_size] none of the returned index sets is empty. *)
Theorem linesmooth_patches
    (py_int : string -> result Z) (opts : Options) (prefix : string)
    (V : FunctionSpace) (codim_list : list Z) :
  extruded (V_mesh V) = true ->
  mapM py_int (split "," (getString opts (prefix +:+ "codims") "0, 1"))
    = Ok codim_list ->
  let dm := topology_dm (V_mesh V) in
  let patches :=
    flat_map (fun codim =>
      map (fun p => Py.arange (V_getOffset V p * V_value_size V)
                      (V_value_size V * (V_getOffset V p + V_getDof V p)))
          (filter (fun p => negb (V_getDof V p <=? 0))
             (filter (is_owned dm)
                (Py.range (fst (getHeightStratum dm codim))
                          (snd (getHeightStratum dm codim))))))
      codim_list in
  ASMLinesmoothPC_get_patches py_int opts prefix V = Ok patches /\
  (0 < V_value_size V -> Forall (fun iset => iset <> []) patches).
Proof.
  intros Hext Hparse dm patches. split.
  - unfold ASMLinesmoothPC_get_patches. rewrite Hext, Hparse. simpl.
    fold dm. rewrite codim_loop_owned.
    erewrite mapM_Ok_map; [simpl; by rewrite <- flat_map_concat_map|].
    intros codim. simpl.
    erewrite (mapM_Ok_map (linesmooth_patch V)
      (fun p => if negb (V_getDof V p <=? 0)
                then [Py.arange (V_getOffset V p * V_value_size V)
                        (V_value_size V * (V_getOffset V p + V_getDof V p))]
                else [])).
    + simpl. f_equal. apply concat_map_optional.
    + intros p. unfold linesmooth_patch. by destruct (V_getDof V p <=? 0).
  - intros Hvs. unfold patches. apply Forall_forall. intros iset Hin.
    apply list_elem_of_In, in_flat_map in Hin as (codim & _ & Hin).
    apply in_map_iff in Hin as (p & <- & Hp).
    apply list_elem_of_In, list_elem_of_filter in Hp as [Hdof _].
    apply Is_true_true, negb_true_iff, Z.leb_gt in Hdof.
    unfold Py.arange. rewrite seqZ_cons by nia. done.
Qed.

Lemma linesmooth_patches_witness :
  ASMLinesmoothPC_get_patches int_of_default_codims no_options
    "pc_linesmooth_" P1xP1_extruded = Ok [[0; 1; 2]; [3; 4; 5]; [6; 7; 8]] /\
  (0 < V_value_size P1xP1_extruded ->
   Forall (fun iset => iset <> []) [[0; 1; 2]; [3; 4; 5]; [6; 7; 8]]).
Proof.
  apply (linesmooth_patches int_of_default_codims no_options "pc_linesmooth_"
           P1xP1_extruded [0; 1]).
  - reflexivity.
  - by vm_compute.
Defined.

(** ** Reordering changes the order of a patch only *)

Lemma concat_perm {A} (ls ls' : list (list A)) :
  ls ≡ₚ ls' -> concat ls ≡ₚ concat ls'.
Proof.
  induction 1 as [|l ls ls' _ IH|l1 l2 ls|ls1 ls2 ls3 _ IH1 _ IH2]; simpl.
  - done.
  - by rewrite IH.
  - rewrite !app_assoc. f_equiv. apply Permutation_app_comm.
  - by etrans.
Qed.

Lemma field_blocks_perm W pts pts' :
  pts ≡ₚ pts' ->
  forall out', (@concat _) <$> mapM (point_block W) pts' = Ok out' ->
  exists out,
    (@concat _) <$> mapM (point_block W) pts = Ok out /\ out ≡ₚ out'.
Proof.
  intros Hperm out' Hout'.
  apply fmap_Ok_inv in Hout' as (blocks' & Hblocks' & ->).
  destruct (mapM_Ok_perm (point_block W) pts pts' Hperm blocks' Hblocks')
    as (blocks & Hblocks & Hbp).
  exists (concat blocks). rewrite Hblocks. split; [done|]. by apply concat_perm.
Qed.

Lemma patch_indices_perm V pts pts' :
  pts ≡ₚ pts' ->
  forall out', patch_indices V pts' = Ok out' ->
  exists out, patch_indices V pts = Ok out /\ out ≡ₚ out'.
Proof.
  intros Hperm. unfold patch_indices. rewrite !fields_loop_blocks. simpl.
  induction (V_subspaces V) as [|W Ws IH]; intros out' Hout'.
  - exists out'. done.
  - apply fmap_Ok_inv in Hout' as (per_field' & Hpf' & ->).
    rewrite mapM_cons_eq in Hpf'.
    apply bind_Ok_inv in Hpf' as (b' & Hb' & Hpf').
    apply bind_Ok_inv in Hpf' as (bs' & Hbs' & [= <-]).
    destruct (field_blocks_perm W pts pts' Hperm b' Hb') as (b & Hb & Hbp).
    destruct (IH (concat bs')) as (rest & Hrest & Hrp); [by rewrite Hbs'|].
    apply fmap_Ok_inv in Hrest as (bs & Hbs & ->).
    exists (b ++ concat bs). rewrite mapM_cons_eq, Hb, Hbs. simpl.
    split; [done|]. by rewrite Hbp, Hrp.
Qed.

(** With an ordering routine that returns permutations, the dofs of a
    star patch are those of the star assembled in the order in which
    the topology lists it: nested dissection changes the position of
    the dofs in the patch and nothing else. *)
Theorem star_patch_reorders_only
    (getOrdering_ND : AIJ -> list Z) (dm : DMPlex) (V : FunctionSpace)
    (seed : Z) (unordered : IS) :
  (forall G, getOrdering_ND G ≡ₚ seqZ 0 (fst (aij_shape G))) ->
  getTransitiveClosure dm seed false <> [] ->
  patch_indices V (getTransitiveClosure dm seed false) = Ok unordered ->
  exists indices,
    star_patch getOrdering_ND dm V seed = Ok [indices] /\
    indices ≡ₚ unordered.
Proof.
  intros Hord Hne Hraw. unfold star_patch.
  destruct (nested_dissection_reorders getOrdering_ND dm _ Hord Hne)
    as (pts & -> & Hperm).
  destruct (patch_indices_perm V _ _ Hperm _ Hraw) as (out & Hout & Hop).
  exists out. simpl. by rewrite Hout.
Qed.

Lemma star_patch_reorders_only_witness :
  exists indices,
    star_patch identity_ordering interval_dm P1xP1_interval 3 = Ok [indices] /\
    indices ≡ₚ [1; 4].
Proof.
  apply (star_patch_reorders_only identity_ordering interval_dm
           P1xP1_interval 3 [1; 4]).
  - intros G. reflexivity.
  - discriminate.
  - by vm_compute.
Defined.

(** ** Dof extraction within bounds *)

Lemma take_indices_shifted first n a len :
  0 <= a -> a + len <= n ->
  Py.take_indices (seqZ first n) (seqZ a len) = Ok (seqZ (first + a) len).
Proof.
  intros Ha Hn. unfold Py.take_indices. apply mapM_Ok_Forall2.
  apply Forall2_same_length_lookup. split; [by rewrite !length_seqZ|].
  intros i x y Hx Hy.
  apply lookup_seqZ in Hx as [-> Hi]. apply lookup_seqZ in Hy as [-> _].
  rewrite <- (Z2Nat.id (a + Z.of_nat i)) by lia.
  apply getitem_lookup. apply lookup_seqZ. split; lia.
Qed.

Lemma mapM_Ok_map_on {A B} (f : A -> result B) (g : A -> B) l :
  (forall x, x ∈ l -> f x = Ok (g x)) -> mapM f l = Ok (map g l).
Proof.
  induction l as [|x l IH]; intros Hfg; [done|].
  rewrite mapM_cons_eq, Hfg, IH by set_solver. done.
Qed.

(** When every field owns a contiguous block [first, first + size) of
    the mixed numbering and the section keeps the dofs of the listed
    points inside the field, dof extraction cannot fail, and the patch
    is, field after field and point after point, the block
    [first + value_size * offset, first + value_size * (offset + dof))
    of every point that carries dofs. *)
Theorem patch_indices_contiguous_fields
    (V : FunctionSpace) (pt_array : list Z) (first size : SubSpace -> Z) :
  (forall W, W ∈ V_subspaces V ->
     local_is_indices W = seqZ (first W) (size W)) ->
  (forall W p, W ∈ V_subspaces V -> p ∈ pt_array -> 0 < getDof W p ->
     0 <= value_size W * getOffset W p /\
     value_size W * (getOffset W p + getDof W p) <= size W) ->
  patch_indices V pt_array =
  Ok (flat_map (fun W =>
        flat_map (fun p =>
          if getDof W p <=? 0 then []
          else seqZ (first W + value_size W * getOffset W p)
                    (value_size W * getDof W p))
          pt_array)
        (V_subspaces V)).
Proof.
  intros Hlocal Hbounds. unfold patch_indices. rewrite fields_loop_blocks.
  erewrite mapM_Ok_map_on.
  - simpl. by rewrite <- flat_map_concat_map.
  - intros W HW. simpl.
    erewrite (mapM_Ok_map_on (point_block W)
      (fun p => if getDof W p <=? 0 then []
                else seqZ (first W + value_size W * getOffset W p)
                          (value_size W * getDof W p))).
    + simpl. by rewrite <- flat_map_concat_map.
    + intros p Hp. unfold point_block.
      destruct (Z.leb_spec (getDof W p) 0) as [|Hdof]; [done|].
      destruct (Hbounds W p HW Hp Hdof) as [Hlo Hhi].
      rewrite (Hlocal W HW). unfold Py.arange.
      replace (getOffset W p * value_size W)
        with (value_size W * getOffset W p) by lia.
      replace (value_size W * (getOffset W p + getDof W p)
               - value_size W * getOffset W p)
        with (value_size W * getDof W p) by lia.
      apply take_indices_shifted; lia.
Qed.

Lemma patch_indices_contiguous_fields_witness :
  patch_indices P1xP1_interval [2; 3; 4] =
  Ok (flat_map (fun W =>
        flat_map (fun p =>
          if getDof W p <=? 0 then []
          else seqZ (default 0 (head (local_is_indices W))
                     + value_size W * getOffset W p)
                    (value_size W * getDof W p))
          [2; 3; 4])
        (V_subspaces P1xP1_interval)).
Proof.
  apply (patch_indices_contiguous_fields P1xP1_interval [2; 3; 4]
           (fun W => default 0 (head (local_is_indices W)))
           (fun W => Z.of_nat (length (local_is_indices W)))).
  - intros W HW. apply list_elem_of_In in HW. simpl in HW.
    destruct HW as [<- | [<- | []]]; reflexivity.
  - intros W p HW Hp Hdof.
    apply list_elem_of_In in HW. apply list_elem_of_In in Hp.
    simpl in HW, Hp.
    destruct HW as [<- | [<- | []]];
      destruct Hp as [<- | [<- | [<- | []]]]; simpl; lia.
Defined.

(** ** Dof ranges of a column *)

(** For a column that starts at [off], holds [dof] dofs on each of its
    [nlayers] levels and [blayer_offset - dof] between two levels, the
    range selected at layer [k] on a consulted plane lies inside the
    column, [off .. off + dof + (nlayers - 1) * blayer_offset], and is
    never reversed. *)
Theorem plane_range_inside_column
    (k nlayers plane off blayer_offset dof : Z) :
  0 <= k < nlayers -> 2 <= nlayers ->
  0 <= dof <= blayer_offset ->
  plane ∈ planes_of_layer k nlayers ->
  let r := plane_range k plane off blayer_offset dof in
  off <= fst r /\ fst r <= snd r /\
  snd r <= off + dof + (nlayers - 1) * blayer_offset.
Proof.
  intros Hk Hn Hd Hplane r.
  pose proof (planes_of_layer_in_range k nlayers plane Hk Hn Hplane) as Hin.
  assert (Hp : plane = -1 \/ plane = 0 \/ plane = 1).
  { unfold planes_of_layer in Hplane.
    destruct (k =? 0); [|destruct (k =? nlayers - 1)]; set_unfold; lia. }
  unfold r, plane_range.
  destruct Hp as [-> | [-> | ->]]; simpl; nia.
Qed.

Lemma plane_range_inside_column_witness :
  let r := plane_range 1 (-1) 0 2 1 in
  0 <= fst r /\ fst r <= snd r /\ snd r <= 0 + 1 + (3 - 1) * 2.
Proof.
  apply (plane_range_inside_column 1 3 (-1) 0 2 1); try lia.
  vm_compute. set_solver.
Defined.

(** At an inner layer the three ranges follow one another without gap
    or overlap: below, the layer itself, above. *)
Theorem plane_ranges_tile (k off blayer_offset dof : Z) :
  let below := plane_range k (-1) off blayer_offset dof in
  let here := plane_range k 0 off blayer_offset dof in
  let above := plane_range k 1 off blayer_offset dof in
  fst below = off + (k - 1) * blayer_offset + dof /\
  snd below = fst here /\
  snd here = fst above /\
  snd above = off + (k + 1) * blayer_offset.
Proof.
  unfold plane_range. simpl.
  replace (Z.min k (k + -1)) with (k - 1) by lia.
  replace (Z.max k (k + -1)) with k by lia.
  replace (Z.min k (k + 1)) with k by lia.
  replace (Z.max k (k + 1)) with (k + 1) by lia.
  simpl. lia.
Qed.

(** ** [get_basemesh_nodes] *)

Lemma basemesh_loop_entries W nlayers layer_offsets ps a1 a2 a3 b1 b2 b3 :
  basemesh_loop W nlayers layer_offsets ps (a1, a2, a3) = Ok (b1, b2, b3) ->
  exists entries : list (Z * Z),
    b1 = a1 ++ map (getOffset W) ps /\
    b2 = a2 ++ map fst entries /\
    b3 = a3 ++ map snd entries /\
    Forall2 (column_entry W nlayers) ps entries /\
    Forall2 (fun p entry =>
               getDof W p <> 0 ->
               Py.getitem layer_offsets (getOffset W p) = Ok (snd entry))
            ps entries.
Proof.
  revert a1 a2 a3. induction ps as [|p rest IH]; intros a1 a2 a3 Hloop.
  - injection Hloop as <- <- <-. exists [].
    simpl. rewrite !app_nil_r. split_and!; (done || constructor).
  - cbn [basemesh_loop] in Hloop.
    apply bind_Ok_inv in Hloop as ([d s] & Hr & Hloop).
    apply IH in Hloop as (entries & -> & -> & -> & Hcol & Hget).
    exists ((d, s) :: entries). simpl.
    rewrite <- !app_assoc. simpl. split_and!; [done..| |].
    + constructor; [|done]. unfold column_entry. simpl.
      destruct (Z.eqb_spec (getDof W p) 0) as [H0|Hn0].
      * injection Hr as <- <-. lia.
      * apply bind_Ok_inv in Hr as (lo & _ & Hr).
        destruct (Z.leb_spec 0 lo); [|done].
        injection Hr as <- <-. lia.
    + constructor; [|done]. simpl. intros Hdof.
      destruct (Z.eqb_spec (getDof W p) 0) as [H0|Hn0]; [done|].
      apply bind_Ok_inv in Hr as (lo & Hlo & Hr).
      destruct (0 <=? lo); [|done]. by injection Hr as <- <-.
Qed.

(** When [get_basemesh_nodes] returns, its three arrays have one entry
    for each point of the chart, in chart order: the section offset of
    the point; a stride that is non-negative, is 0 on a point without
    dofs, and otherwise is the offset that the cell-node map gives to
    the first dof of the point; and the number of dofs of the point
    less [nlayers - 1] strides.  It returns only if the first dof of
    every point that carries dofs has been given an offset. *)
Theorem get_basemesh_nodes_columns
    (mesh : Mesh) (W : SubSpace) (boff bdof blayer : list Z) :
  get_basemesh_nodes mesh W = Ok (boff, bdof, blayer) ->
  let chart := Py.range (fst (getChart (topology_dm mesh)))
                        (snd (getChart (topology_dm mesh))) in
  boff = map (getOffset W) chart /\
  length bdof = length chart /\
  length blayer = length chart /\
  Forall2 (column_entry W (layers mesh)) chart (zip bdof blayer) /\
  exists layer_offsets,
    assign_rows (replicate (Z.to_nat (node_set_total_size W)) (-1))
      (cell_node_values_with_halo W) (cell_node_offset W) = Ok layer_offsets /\
    Forall2 (fun p stride =>
               getDof W p <> 0 ->
               Py.getitem layer_offsets (getOffset W p) = Ok stride)
            chart blayer.
Proof.
  intros Hget chart. unfold get_basemesh_nodes in Hget.
  destruct (getChart (topology_dm mesh)) as [pstart pend].
  apply bind_Ok_inv in Hget as (layer_offsets & Hassign & Hloop).
  apply basemesh_loop_entries in Hloop
    as (entries & -> & -> & -> & Hcol & Hlo).
  simpl in *. fold chart in Hcol, Hlo |- *.
  pose proof (Forall2_length _ _ _ Hcol) as Hlen.
  rewrite !length_map. split_and!; [done..| |].
  - change (map fst entries) with (entries.*1).
    change (map snd entries) with (entries.*2).
    by rewrite zip_fst_snd.
  - exists layer_offsets. split; [done|].
    clear -Hlo. induction Hlo; constructor; done.
Qed.

Lemma get_basemesh_nodes_columns_witness :
  let chart := Py.range 0 5 in
  [0; 0; 0; 3; 6] = map (getOffset (P1_column_field 0)) chart /\
  length [0; 0; 1; 1; 1] = length chart /\
  length [0; 0; 1; 1; 1] = length chart /\
  Forall2 (column_entry (P1_column_field 0) 3) chart
    (zip [0; 0; 1; 1; 1] [0; 0; 1; 1; 1]) /\
  exists layer_offsets,
    assign_rows (replicate (Z.to_nat 9) (-1))
      [[0; 1; 3; 4]; [3; 4; 6; 7]] [1; 1; 1; 1] = Ok layer_offsets /\
    Forall2 (fun p stride =>
               getDof (P1_column_field 0) p <> 0 ->
               Py.getitem layer_offsets (getOffset (P1_column_field 0) p)
                 = Ok stride)
            chart [0; 0; 1; 1; 1].
Proof.
  apply (get_basemesh_nodes_columns extruded_interval_mesh (P1_column_field 0)
           [0; 0; 0; 3; 6] [0; 0; 1; 1; 1] [0; 0; 1; 1; 1]).
  by vm_compute.
Defined.

(** ** Sub-ranges collected for a field *)

Lemma extruded_points_loop_sizes F k plane points slices sdof slices' sdof' :
  extruded_points_loop F k plane points slices sdof = Ok (slices', sdof') ->
  Forall2 (fun z d => snd z - fst z = value_size (fa_W F) * d) slices sdof ->
  Forall2 (fun z d => snd z - fst z = value_size (fa_W F) * d) slices' sdof'.
Proof.
  revert slices sdof.
  induction points as [|p rest IH]; intros slices sdof; simpl.
  - intros [= <- <-]. done.
  - unfold mbind, result_bind.
    destruct (Py.getitem (fa_basemeshlayeroffsets F) p) as [blo|]; [|done].
    destruct (blo <=? 0); [apply IH|].
    destruct (Py.getitem (fa_basemeshoff F) p) as [off|]; [|done].
    destruct (Py.getitem (fa_basemeshdof F) p) as [dof|]; [|done].
    destruct (plane_range k plane off blo dof) as [begin_ end_].
    intros Hloop Hinv. eapply IH; [exact Hloop|].
    apply Forall2_app; [done|]. constructor; [simpl; lia|constructor].
Qed.

(** The two lists that the plane and point loops fill for a field stay
    in step: each recorded size is the length of the slice recorded at
    the same position, in units of [value_size]. *)
Theorem extruded_slices_match_sizes
    (F : FieldArrays) (k : Z) (planes points : list Z)
    (slices : list (Z * Z)) (sdof : list Z) :
  extruded_planes_loop F k planes points [] [] = Ok (slices, sdof) ->
  Forall2 (fun z d => snd z - fst z = value_size (fa_W F) * d) slices sdof.
Proof.
  assert (Hgen : forall sl sd,
    extruded_planes_loop F k planes points sl sd = Ok (slices, sdof) ->
    Forall2 (fun z d => snd z - fst z = value_size (fa_W F) * d) sl sd ->
    Forall2 (fun z d => snd z - fst z = value_size (fa_W F) * d) slices sdof).
  { induction planes as [|plane rest IH]; intros sl sd; simpl.
    - intros [= <- <-]. done.
    - intros Hloop Hinv.
      apply bind_Ok_inv in Hloop as ([sl' sd'] & Hpts & Hloop).
      eapply IH; [exact Hloop|]. simpl.
      by eapply extruded_points_loop_sizes. }
  intros Hloop. eapply Hgen; [exact Hloop|constructor].
Qed.

Lemma extruded_slices_match_sizes_witness :
  Forall2 (fun z d => snd z - fst z = value_size (fa_W stride2_column) * d)
    [(1, 2); (3, 4); (2, 3)] [1; 1; 1].
Proof.
  apply (extruded_slices_match_sizes stride2_column 1 [-1; 1; 0] [0]).
  reflexivity.
Defined.

Lemma map_lookup_total_positions {A} `{Inhabited A} (l : list A) :
  map (fun j => l !!! Z.to_nat j) (seqZ 0 (Z.of_nat (length l))) = l.
Proof.
  apply list_eq. intros i. rewrite list_lookup_fmap.
  destruct (decide (i < length l)%nat) as [Hi|Hi].
  - rewrite lookup_seqZ_lt by lia.
    change (Some (l !!! Z.to_nat (0 + Z.of_nat i)) = l !! i).
    replace (Z.to_nat (0 + Z.of_nat i)) with i by lia.
    symmetry. by apply list_lookup_lookup_total_lt.
  - rewrite lookup_seqZ_ge by lia. simpl. symmetry.
    apply lookup_ge_None. lia.
Qed.

Lemma argsort_mergesort_perm keys :
  argsort_mergesort keys ≡ₚ seqZ 0 (Z.of_nat (length keys)).
Proof.
  unfold argsort_mergesort. rewrite sort_positions_perm.
  by rewrite snd_zip by (rewrite length_seqZ; lia).
Qed.

(** Sorting the sub-ranges of a field changes the order in which they
    are appended and nothing else: what the field adds to the patch is
    a rearrangement of its slices taken in the order of collection. *)
Theorem extruded_sorting_reorders_only
    (F : FieldArrays) (rest : list FieldArrays) (planes points : list Z)
    (k : Z) (indices : list Z) (slices : list (Z * Z)) (sdof : list Z) :
  extruded_planes_loop F k planes points [] [] = Ok (slices, sdof) ->
  exists k' indices',
    extruded_fields_loop (F :: rest) planes points k indices =
      extruded_fields_loop rest planes points k' indices' /\
    indices' ≡ₚ
      indices ++
      flat_map (fun z => Py.getslice (fa_iset F) (fst z) (snd z)) slices.
Proof.
  intros Hloop.
  pose proof (extruded_planes_loop_lengths _ _ _ _ _ _ _ _ Hloop eq_refl)
    as Hlen.
  set (order := rev (argsort_mergesort sdof)).
  assert (Hperm : order ≡ₚ seqZ 0 (Z.of_nat (length slices))).
  { unfold order. rewrite <- Permutation_rev, Hlen.
    apply argsort_mergesort_perm. }
  exists (List.last order k),
    (indices ++ flat_map (slice_at (fa_iset F) slices) order).
  split.
  - cbn [extruded_fields_loop]. rewrite Hloop. simpl. fold order.
    rewrite emit_loop_spec; [done|].
    apply Forall_forall. intros j Hj. rewrite Hperm in Hj.
    apply elem_of_seqZ in Hj. lia.
  - f_equiv. rewrite !flat_map_concat_map. apply concat_perm.
    rewrite <- (map_lookup_total_positions slices) at 2.
    rewrite map_map. by apply Permutation_map.
Qed.

Lemma extruded_sorting_reorders_only_witness :
  exists k' indices',
    extruded_fields_loop [stride2_column] [-1; 1; 0] [0] 1 [] =
      extruded_fields_loop [] [-1; 1; 0] [0] k' indices' /\
    indices' ≡ₚ
      [] ++
      flat_map (fun z => Py.getslice (fa_iset stride2_column) (fst z) (snd z))
        [(1, 2); (3, 4); (2, 3)].
Proof.
  apply (extruded_sorting_reorders_only stride2_column [] [-1; 1; 0] [0] 1 []
           [(1, 2); (3, 4); (2, 3)] [1; 1; 1]).
  reflexivity.
Defined.

(** ** The graph handed to the ordering routine *)

Lemma insert_unique_elem_of x y l :
  y ∈ Np.insert_unique x l <-> y = x \/ y ∈ l.
Proof.
  induction l as [|z l IH]; simpl; [set_solver|].
  destruct (x <? z); [set_solver|].
  destruct (Z.eqb_spec x z) as [->|Hne]; [set_solver|].
  set_unfold. rewrite IH. tauto.
Qed.

Lemma unique_elem_of y l : y ∈ Np.unique l <-> y ∈ l.
Proof.
  unfold Np.unique. induction l as [|x l IH]; simpl; [done|].
  rewrite insert_unique_elem_of, IH. set_solver.
Qed.

Lemma first_index_Some v l c :
  Np.first_index v l = Some c <->
  exists i : nat,
    c = Z.of_nat i /\ l !! i = Some v /\
    forall j : nat, (j < i)%nat -> l !! j <> Some v.
Proof.
  unfold Np.first_index. split.
  - intros Hfind. apply fmap_Some in Hfind as ([i x] & Hfind & ->).
    apply list_find_Some in Hfind as (Hi & -> & Hfirst).
    exists i. split_and!; [done..|].
    intros j Hj Hlook. by apply (Hfirst j v).
  - intros (i & -> & Hi & Hfirst).
    apply fmap_Some. exists (i, v). split; [|done].
    apply list_find_Some. split_and!; [done..|].
    intros j y Hy Hj ->. by apply (Hfirst j).
Qed.

(** Column [c] is stored in the row of the point [p] exactly when [c]
    is the position of the first occurrence, in the point array, of a
    point that the topology lists as adjacent to [p]: the graph is the
    adjacency relation restricted to the patch. *)
Theorem adjacency_rows_edges
    (mesh_dm : DMPlex) (pt_array : list Z) (r : nat) (p c : Z) :
  pt_array !! r = Some p ->
  exists row,
    adjacency_rows mesh_dm pt_array !! r = Some row /\
    (c ∈ row <->
     exists (i : nat) (q : Z),
       c = Z.of_nat i /\ pt_array !! i = Some q /\
       q ∈ getAdjacency mesh_dm p /\
       forall j : nat, (j < i)%nat -> pt_array !! j <> Some q).
Proof.
  intros Hp. eexists. split.
  - unfold adjacency_rows. rewrite list_lookup_fmap, Hp. reflexivity.
  - unfold Np.intersect1d_indices1. rewrite list_elem_of_omap. split.
    + intros (v & Hv & Hfirst).
      apply list_elem_of_filter in Hv as [Hadj _].
      apply first_index_Some in Hfirst as (i & -> & Hi & Hmin).
      exists i, v. done.
    + intros (i & q & -> & Hi & Hadj & Hmin).
      exists q. split.
      * apply list_elem_of_filter. split; [done|].
        apply unique_elem_of. by eapply list_elem_of_lookup_2.
      * apply first_index_Some. exists i. done.
Qed.

Lemma adjacency_rows_edges_witness :
  exists row,
    adjacency_rows interval_dm [3; 0; 1] !! 1%nat = Some row /\
    (0 ∈ row <->
     exists (i : nat) (q : Z),
       0 = Z.of_nat i /\ [3; 0; 1] !! i = Some q /\
       q ∈ getAdjacency interval_dm 0 /\
       forall j : nat, (j < i)%nat -> [3; 0; 1] !! j <> Some q).
Proof.
  apply (adjacency_rows_edges interval_dm [3; 0; 1] 1 0 0).
  reflexivity.
Defined.

Lemma cumsum_from_length acc l : length (Py.cumsum_from acc l) = length l.
Proof. revert acc. induction l as [|x l IH]; intros acc; simpl; [done|]. by rewrite IH. Qed.

Lemma cumsum_from_sorted acc l :
  Forall (fun x => 0 <= x) l ->
  Forall (fun y => acc <= y) (Py.cumsum_from acc l) /\
  StronglySorted Z.le (Py.cumsum_from acc l).
Proof.
  intros Hl. revert acc.
  induction Hl as [|x l Hx _ IH]; intros acc; simpl; [split; constructor|].
  destruct (IH (acc + x)) as [Hge Hs]. split.
  - constructor; [lia|]. eapply Forall_impl; [exact Hge|]. simpl. lia.
  - by constructor.
Qed.

Lemma cumsum_from_last acc l :
  List.last (acc :: Py.cumsum_from acc l) 0 = acc + foldr Z.add 0 l.
Proof.
  revert acc. induction l as [|x l IH]; intros acc; [simpl; lia|].
  change (Py.cumsum_from acc (x :: l))
    with ((acc + x) :: Py.cumsum_from (acc + x) l).
  rewrite last_cons_default.
  rewrite (last_default_irrelevant _ _ acc 0), IH. simpl. lia.
Qed.

Lemma concat_length_sum {A} (ls : list (list A)) :
  Z.of_nat (length (concat ls)) =
  foldr Z.add 0 (map (fun l => Z.of_nat (length l)) ls).
Proof.
  induction ls as [|l ls IH]; simpl; [done|]. rewrite length_app. lia.
Qed.

Lemma adjacency_graph_well_formed mesh_dm pt_array :
  csr_well_formed (adjacency_graph mesh_dm pt_array).
Proof.
  unfold csr_well_formed, adjacency_graph. cbn [aij_shape aij_rows aij_cols
    aij_values fst snd].
  set (rows := adjacency_rows mesh_dm pt_array).
  set (lens := map (fun neigh : list Z => Z.of_nat (length neigh)) rows).
  change (Py.cumsum (0 :: lens)) with (0 :: Py.cumsum_from 0 lens).
  assert (Hlens : Forall (fun x => 0 <= x) lens).
  { unfold lens. apply Forall_forall. intros x Hx.
    apply list_elem_of_In, in_map_iff in Hx as (l & <- & _). lia. }
  destruct (cumsum_from_sorted 0 lens Hlens) as [Hge Hsorted].
  split_and!.
  - done.
  - simpl. rewrite cumsum_from_length. unfold lens, rows, adjacency_rows.
    rewrite !length_map. lia.
  - done.
  - rewrite cumsum_from_last. unfold lens. rewrite <- concat_length_sum. lia.
  - by constructor.
  - apply Forall_forall. intros c Hc.
    apply list_elem_of_In, in_concat in Hc as (row & Hrow & Hc).
    unfold rows, adjacency_rows in Hrow.
    apply in_map_iff in Hrow as (p & <- & _).
    apply list_elem_of_In in Hc. unfold Np.intersect1d_indices1 in Hc.
    apply list_elem_of_omap in Hc as (v & _ & Hfirst).
    apply first_index_Some in Hfirst as (i & -> & Hi & _).
    apply lookup_lt_Some in Hi. lia.
  - apply length_replicate.
Qed.

(** On a non-empty point array the reordering is the fancy indexing of
    the array by what the ordering routine returns for the adjacency
    graph, and that graph is a well-formed square compressed-row
    matrix with one row per point: the routine is never handed a
    column index outside the patch. *)
Theorem nested_dissection_graph
    (getOrdering_ND : AIJ -> list Z) (mesh_dm : DMPlex) (pt_array : list Z) :
  pt_array <> [] ->
  nested_dissection getOrdering_ND mesh_dm pt_array =
    Py.take_indices pt_array (getOrdering_ND (adjacency_graph mesh_dm pt_array))
  /\ fst (aij_shape (adjacency_graph mesh_dm pt_array))
       = Z.of_nat (length pt_array)
  /\ csr_well_formed (adjacency_graph mesh_dm pt_array).
Proof.
  intros Hne. split_and!.
  - destruct pt_array as [|p pts]; [done|]. reflexivity.
  - reflexivity.
  - apply adjacency_graph_well_formed.
Qed.

Lemma nested_dissection_graph_witness :
  nested_dissection identity_ordering interval_dm [3; 0; 1] =
    Py.take_indices [3; 0; 1]
      (identity_ordering (adjacency_graph interval_dm [3; 0; 1]))
  /\ fst (aij_shape (adjacency_graph interval_dm [3; 0; 1]))
       = Z.of_nat (length [3; 0; 1])
  /\ csr_well_formed (adjacency_graph interval_dm [3; 0; 1]).
Proof.
  apply (nested_dissection_graph identity_ordering interval_dm [3; 0; 1]).
  discriminate.
Defined.

(** ** Initialisation *)

(** The run of [initialize], case by case. *)
Lemma initialize_run
    (get_patches : FunctionSpace -> result (list IS)) (have_tinyasm : bool)
    (lgmap_applyIS : IS -> IS) (dof_dset_total_size : SubSpace -> Z)
    (opts : Options) (prefix : string) (V : FunctionSpace) :
  let backend := lower (getString opts (prefix +:+ "backend") "petscasm") in
  let sub := prefix +:+ "sub_" in
  let setup :=
    [Call_get_patches; Call_PC_create; Call_incrementTabLevel;
     Call_setOptionsPrefix sub; Call_setOperators] in
  initialize get_patches have_tinyasm lgmap_applyIS dof_dset_total_size
    opts prefix V =
  match get_patches V with
  | Raise e => ([Call_get_patches], Raise e)
  | Ok ises =>
      if String.eqb backend "petscasm" then
        (setup ++
         [Call_setType "asm"; Call_setASMType_BASIC;
          Call_setASMSortIndices (getBool opts (prefix +:+ "sort") true)] ++
         match opt_string opts !! (sub +:+ "sub_pc_type") with
         | None => [Call_Options_setitem "sub_pc_type" "lu"]
         | Some _ => []
         end ++
         match opt_string opts !! (sub +:+ "sub_pc_factor_shift_type") with
         | None => [Call_Options_setitem "sub_pc_factor_shift_type" "NONE"]
         | Some _ => []
         end ++
         [Call_setASMLocalSubdomains (length (map lgmap_applyIS ises))
            (map lgmap_applyIS ises);
          Call_setFromOptions],
         Ok tt)
      else if String.eqb backend "tinyasm" then
        if have_tinyasm then
          (setup ++
           [Call_setLGMap; Call_setType "tinyasm";
            Call_tinyasm_SetASMLocalSubdomains ises
              (map value_size (V_subspaces V))
              (foldr Z.add 0
                 (map (fun W => value_size W * dof_dset_total_size W)
                      (V_subspaces V)));
            Call_setUp; Call_setFromOptions],
           Ok tt)
        else (setup, Raise (ValueError tinyasm_message))
      else (setup, Raise (ValueError ("Unknown backend type f" +:+ backend)))
  end.
Proof.
  intros backend sub setup. unfold initialize. fold backend sub.
  destruct (get_patches V) as [ises|e]; [|reflexivity].
  destruct (String.eqb backend "petscasm").
  - destruct (opt_string opts !! (sub +:+ "sub_pc_type"));
      destruct (opt_string opts !! (sub +:+ "sub_pc_factor_shift_type"));
      reflexivity.
  - destruct (String.eqb backend "tinyasm"); [|reflexivity].
    destruct have_tinyasm; reflexivity.
Qed.

(** The defaults for the sub-solver are written only for the keys the
    user left unset: no option that is present is ever overwritten. *)
Theorem initialize_keeps_user_options
    (get_patches : FunctionSpace -> result (list IS)) (have_tinyasm : bool)
    (lgmap_applyIS : IS -> IS) (dof_dset_total_size : SubSpace -> Z)
    (opts : Options) (prefix : string) (V : FunctionSpace)
    (key value : string) :
  Call_Options_setitem key value ∈
    fst (initialize get_patches have_tinyasm lgmap_applyIS dof_dset_total_size
           opts prefix V) ->
  opt_string opts !! ((prefix +:+ "sub_") +:+ key) = None /\
  ((key, value) = ("sub_pc_type", "lu") \/
   (key, value) = ("sub_pc_factor_shift_type", "NONE")).
Proof.
  rewrite initialize_run.
  destruct (get_patches V) as [ises|e]; [|set_solver].
  destruct (String.eqb _ "petscasm").
  - destruct (opt_string opts !! (_ +:+ "sub_pc_type")) eqn:H1;
      destruct (opt_string opts !! (_ +:+ "sub_pc_factor_shift_type")) eqn:H2;
      simpl; intros Hin; set_unfold;
      repeat (destruct Hin as [Hin|Hin]; try discriminate Hin);
      try done; injection Hin as -> ->; auto.
  - destruct (String.eqb _ "tinyasm"); [destruct have_tinyasm|];
      simpl; intros Hin; set_unfold;
      repeat (destruct Hin as [Hin|Hin]; try discriminate Hin); done.
Qed.

Lemma initialize_keeps_user_options_witness :
  opt_string no_options !! (("pc_star_" +:+ "sub_") +:+ "sub_pc_type") = None /\
  (("sub_pc_type", "lu") = ("sub_pc_type", "lu") \/
   ("sub_pc_type", "lu") = ("sub_pc_factor_shift_type", "NONE")).
Proof.
  apply (initialize_keeps_user_options
           (ASMStarPC_get_patches identity_ordering no_options "pc_star_")
           false id (fun _ => 3) no_options "pc_star_" P1xP1_interval
           "sub_pc_type" "lu").
  vm_compute. set_solver.
Defined.

(** The patches that reach a backend are those [get_patches] returned:
    PETSc's ASM receives each of them translated to global numbers,
    and as many sub-domains as there are patches; TinyASM receives them
    untranslated, in local numbers, with the value sizes of the fields. *)
Theorem initialize_registers_patches
    (get_patches : FunctionSpace -> result (list IS)) (have_tinyasm : bool)
    (lgmap_applyIS : IS -> IS) (dof_dset_total_size : SubSpace -> Z)
    (opts : Options) (prefix : string) (V : FunctionSpace) (ises : list IS) :
  get_patches V = Ok ises ->
  let backend := lower (getString opts (prefix +:+ "backend") "petscasm") in
  let calls :=
    fst (initialize get_patches have_tinyasm lgmap_applyIS dof_dset_total_size
           opts prefix V) in
  (forall n registered,
      Call_setASMLocalSubdomains n registered ∈ calls <->
      backend = "petscasm" /\ n = length ises /\
      registered = map lgmap_applyIS ises)
  /\ (forall registered value_sizes total,
        Call_tinyasm_SetASMLocalSubdomains registered value_sizes total ∈ calls
        <->
        backend = "tinyasm" /\ have_tinyasm = true /\ registered = ises /\
        value_sizes = map value_size (V_subspaces V) /\
        total = foldr Z.add 0
                  (map (fun W => value_size W * dof_dset_total_size W)
                       (V_subspaces V))).
Proof.
  intros Hises backend calls. unfold calls. rewrite initialize_run, Hises.
  fold backend.
  destruct (String.eqb_spec backend "petscasm") as [Hp|Hp].
  - assert (Hnt : backend <> "tinyasm") by (rewrite Hp; discriminate).
    destruct (opt_string opts !! _); destruct (opt_string opts !! _); simpl;
      rewrite length_map; split; intros; set_unfold; naive_solver.
  - destruct (String.eqb_spec backend "tinyasm") as [Ht|Ht];
      [destruct have_tinyasm|]; simpl; split; intros; set_unfold;
      naive_solver.
Qed.

Lemma initialize_registers_patches_witness :
  let calls :=
    fst (initialize
           (ASMStarPC_get_patches identity_ordering no_options "pc_star_")
           true id (fun _ => 3) no_options "pc_star_" P1xP1_interval) in
  (forall n registered,
      Call_setASMLocalSubdomains n registered ∈ calls <->
      lower (getString no_options ("pc_star_" +:+ "backend") "petscasm")
        = "petscasm" /\
      n = length [[0; 3]; [1; 4]; [2; 5]] /\
      registered = map id [[0; 3]; [1; 4]; [2; 5]])
  /\ (forall registered value_sizes total,
        Call_tinyasm_SetASMLocalSubdomains registered value_sizes total ∈ calls
        <->
        lower (getString no_options ("pc_star_" +:+ "backend") "petscasm")
          = "tinyasm" /\
        true = true /\ registered = [[0; 3]; [1; 4]; [2; 5]] /\
        value_sizes = map value_size (V_subspaces P1xP1_interval) /\
        total = foldr Z.add 0
                  (map (fun W => value_size W * 3)
                       (V_subspaces P1xP1_interval))).
Proof.
  apply (initialize_registers_patches
           (ASMStarPC_get_patches identity_ordering no_options "pc_star_")
           true id (fun _ => 3) no_options "pc_star_" P1xP1_interval
           [[0; 3]; [1; 4]; [2; 5]]).
  by vm_compute.
Defined.

(** ** Points without dofs *)

Lemma concat_all_nil {A} (ls : list (list A)) :
  Forall (fun l => l = []) ls -> concat ls = [].
Proof. induction 1 as [|l ls -> _ IH]; simpl; done. Qed.

(** Points that carry no dof in any field are passed over without the
    index arrays being read: the patch is empty and no [IndexError]
    can occur, whatever offsets the sections report for them. *)
Theorem patch_indices_no_dofs (V : FunctionSpace) (pt_array : list Z) :
  (forall W p, W ∈ V_subspaces V -> p ∈ pt_array -> getDof W p <= 0) ->
  patch_indices V pt_array = Ok [].
Proof.
  intros Hnone. unfold patch_indices. rewrite fields_loop_blocks.
  erewrite (mapM_Ok_map_on _ (fun _ => [])).
  - simpl. f_equal. apply concat_all_nil, Forall_forall.
    intros l Hl. by apply list_elem_of_In, in_map_iff in Hl as (? & <- & _).
  - intros W HW.
    erewrite (mapM_Ok_map_on (point_block W) (fun _ => [])).
    + simpl. f_equal. apply concat_all_nil, Forall_forall.
      intros l Hl. by apply list_elem_of_In, in_map_iff in Hl as (? & <- & _).
    + intros p Hp. unfold point_block.
      by destruct (Z.leb_spec (getDof W p) 0); [|specialize (Hnone W p HW Hp); lia].
Qed.

Lemma patch_indices_no_dofs_witness :
  patch_indices P1xP1_interval [0; 1] = Ok [].
Proof.
  apply (patch_indices_no_dofs P1xP1_interval [0; 1]).
  intros W p HW Hp.
  apply list_elem_of_In in HW. apply list_elem_of_In in Hp. simpl in HW, Hp.
  destruct HW as [<- | [<- | []]]; destruct Hp as [<- | [<- | []]]; simpl; lia.
Defined.
